(** * Sysware status bot: a shallow embedding of [Sysware_status.py]

    The module keeps a process-wide dictionary [current_status] with one
    entry per monitored component, refreshes it from a JSON document
    fetched over HTTP, renders it into an embed and edits one chat message
    with it.  The embedding below follows the source function by function:
    dictionaries are finite maps, the module globals are the fields of a
    [World] record, Python exceptions are the [Raise] outcome of a small
    state-and-exception monad, and every call that leaves the process
    (HTTP, the chat platform, the wall clock) takes its answer from an
    explicit argument and, for the platform, leaves an entry in a trace. *)

From stdpp Require Import gmap strings list fin_maps.
From Stdlib Require Import ZArith Ascii.

Open Scope Z_scope.
Open Scope string_scope.

(** ** Python values and exceptions *)

(** The exception classes that occur in the module.  All of them derive from
    [Exception], so an [except Exception] clause catches each one. *)
Inductive exn : Type :=
  | TypeError
  | KeyError (key : string)
  | ClientError
  | ContentTypeError
  | JSONDecodeError
  | NotFound
  | Forbidden
  | HTTPException
  | UnicodeEncodeError.

Global Instance exn_eq_dec : EqDecision exn.
Proof. solve_decision. Defined.

(** What [json.loads] can return.  A JSON number is an [int] of unbounded
    size or a [float], kept as its 64-bit pattern. *)
Local Unset Elimination Schemes.
Inductive json : Type :=
  | JNull
  | JBool (b : bool)
  | JInt (z : Z)
  | JFloat (bits : Z)
  | JStr (s : string)
  | JArr (items : list json)
  | JObj (members : gmap string json).
Local Set Elimination Schemes.

(** [needle in haystack] on [str]: substring test. *)
Fixpoint str_contains (needle haystack : string) : bool :=
  String.prefix needle haystack ||
  match haystack with
  | EmptyString => false
  | String _ rest => str_contains needle rest
  end.

(** [x == JStr s] for a string [s]: only another [str] can be equal to it. *)
Definition json_eq_str (s : string) (x : json) : bool :=
  match x with
  | JStr t => bool_decide (s = t)
  | _ => false
  end.

(** ** Outcomes, worlds and the monad *)

Inductive Res (A : Type) : Type :=
  | Ok (a : A)
  | Raise (e : exn).
Arguments Ok {A} a.
Arguments Raise {A} e.

(** One dictionary of [current_status]:
    [{'status': ..., 'last_update': ..., 'color': ...}]. *)
Record ComponentStatus : Type := mkStatus {
  status : string;
  last_update : option string;
  color : string
}.

Global Instance ComponentStatus_eq_dec : EqDecision ComponentStatus.
Proof. solve_decision. Defined.

(** [datetime.datetime]: the fields that [strftime] prints. *)
Record DateTime : Type := mkDateTime {
  year : nat; month : nat; day : nat;
  hour : nat; minute : nat; second : nat
}.

Record Field : Type := mkField {
  field_name : string;
  field_value : string;
  field_inline : bool
}.

(** [discord.Embed], with the attributes the module sets. *)
Record Embed : Type := mkEmbed {
  title : string;
  description : string;
  embed_color : Z;
  timestamp : DateTime;
  fields : list Field;
  footer : option string
}.

(** The lines the module prints, one constructor per [print] call of the
    source; the arguments are the values interpolated into the f-string. *)
Inductive Line : Type :=
  | FetchedStatus (data : json)                (* "Fetched status: {data}" *)
  | UpdatedTo (component new_status : string)  (* "Updated {component} to {new_status}" *)
  | FailedHTTP (code : Z)                      (* "Failed to fetch status: HTTP {response.status}" *)
  | ErrorFetching (e : exn)                    (* "Error fetching status from GitHub: {e}" *)
  | ChannelNotFound                            (* "Channel not found!" *)
  | UpdatedMessage (id : Z)                    (* "Updated status message {id}" *)
  | MessageNotFound (id : Z)                   (* "Status message {id} not found! Please update STATUS_MESSAGE_ID in .env" *)
  | ErrorEditing (e : exn)                     (* "Error editing message: {e}" *)
  | NoMessageIdSet                             (* "No STATUS_MESSAGE_ID set! Please create a message manually and set its ID in .env" *)
  | ErrorUpdating (e : exn).                   (* "Error updating status message: {e}" *)

(** A Python [str] is kept as the bytes of its UTF-8 encoding; a lone
    surrogate, which UTF-8 does not encode, is kept as the three bytes
    ED A0..BF 80..BF.  [utf8_valid] tells the strings that [str.encode] with
    the codec utf-8 accepts: the well-formed byte sequences. *)
Definition in_range (lo hi : nat) (c : ascii) : bool :=
  (lo <=? nat_of_ascii c)%nat && (nat_of_ascii c <=? hi)%nat.

Definition continuation (c : ascii) : bool := in_range 0x80 0xBF c.

(** The second byte that may follow the lead byte [a] of a sequence of three. *)
Definition second_of_three (a b : ascii) : bool :=
  (in_range 0xE0 0xE0 a && in_range 0xA0 0xBF b) ||
  (in_range 0xE1 0xEC a && continuation b) ||
  (in_range 0xED 0xED a && in_range 0x80 0x9F b) ||
  (in_range 0xEE 0xEF a && continuation b).

(** The second byte that may follow the lead byte [a] of a sequence of four. *)
Definition second_of_four (a b : ascii) : bool :=
  (in_range 0xF0 0xF0 a && in_range 0x90 0xBF b) ||
  (in_range 0xF1 0xF3 a && continuation b) ||
  (in_range 0xF4 0xF4 a && in_range 0x80 0x8F b).

Fixpoint utf8_valid (s : string) : bool :=
  match s with
  | EmptyString => true
  | String a rest =>
      if in_range 0x00 0x7F a then utf8_valid rest
      else
        match rest with
        | String b rest1 =>
            if in_range 0xC2 0xDF a then continuation b && utf8_valid rest1
            else
              match rest1 with
              | String c rest2 =>
                  if in_range 0xE0 0xEF a then
                    second_of_three a b && continuation c && utf8_valid rest2
                  else
                    match rest2 with
                    | String d rest3 =>
                        second_of_four a b && continuation c && continuation d &&
                        utf8_valid rest3
                    | EmptyString => false
                    end
              | EmptyString => false
              end
        | EmptyString => false
        end
  end.

(** Whether the text of a line can be written to the terminal, which is
    taken to encode with UTF-8.  A [str] is interpolated as it is; a list or
    a dictionary is interpolated as its [repr], which escapes what cannot be
    printed; numbers, the module's own texts and the texts of the exceptions
    are always encodable. *)
Definition encodable (l : Line) : bool :=
  match l with
  | FetchedStatus (JStr s) => utf8_valid s
  | UpdatedTo component new_status => utf8_valid component && utf8_valid new_status
  | _ => true
  end.

(** The requests the module sends to the chat platform about messages. *)
Inductive ApiCall : Type :=
  | FetchMessage (id : Z)                (* channel.fetch_message(id) *)
  | EditMessage (id : Z) (e : Embed)     (* message.edit(embed=e) *)
  | SendEmbed (e : Embed)                (* ctx.send(embed=e) *)
  | SendCreated (id : Z).                (* ctx.send("✅ Status message created! ... STATUS_MESSAGE_ID={id}") *)

(** The mutable state of the process: the two module globals that are
    assigned after import, what was printed, and what was sent to the
    platform (both oldest first). *)
Record World : Type := mkWorld {
  current_status : gmap string ComponentStatus;
  status_message_id : Z;
  stdout : list Line;
  api_calls : list ApiCall
}.

(** A computation may change the world and then either return or raise; the
    changes made before a raise stay, as in Python. *)
Definition Py (A : Type) : Type := World → Res A * World.

Global Instance Py_ret : MRet Py := λ A a w, (Ok a, w).
Global Instance Py_bind : MBind Py := λ A B f m w,
  match m w with
  | (Ok a, w') => f a w'
  | (Raise e, w') => (Raise e, w')
  end.

Definition raise {A} (e : exn) : Py A := λ w, (Raise e, w).

(** Lift the outcome of a pure operation that may raise. *)
Definition lift {A} (r : Res A) : Py A := λ w, (r, w).

(** [try: body / except Exception as e: handler(e)]. *)
Definition try_except {A} (body : Py A) (handler : exn → Py A) : Py A := λ w,
  match body w with
  | (Ok a, w') => (Ok a, w')
  | (Raise e, w') => handler e w'
  end.

(** The world after a line was written. *)
Definition emit (l : Line) (w : World) : World :=
  mkWorld (current_status w) (status_message_id w) (stdout w ++ [l]) (api_calls w).

(** [print]: a text that the terminal's encoding cannot encode raises
    [UnicodeEncodeError] and nothing is written. *)
Definition print (l : Line) : Py unit := λ w,
  if encodable l then (Ok tt, emit l w) else (Raise UnicodeEncodeError, w).

Definition call_api (c : ApiCall) : Py unit := λ w,
  (Ok tt, mkWorld (current_status w) (status_message_id w) (stdout w) (api_calls w ++ [c])).

(** [current_status[component]]: [KeyError] on a missing key. *)
Definition get_entry (component : string) : Py ComponentStatus := λ w,
  match current_status w !! component with
  | Some entry => (Ok entry, w)
  | None => (Raise (KeyError component), w)
  end.

(** [current_status[component][field] = v], as a change [f] of the entry. *)
Definition set_entry (component : string) (f : ComponentStatus → ComponentStatus) : Py unit := λ w,
  match current_status w !! component with
  | Some entry =>
      (Ok tt, mkWorld (<[component := f entry]> (current_status w))
                      (status_message_id w) (stdout w) (api_calls w))
  | None => (Raise (KeyError component), w)
  end.

(** Read a module global. *)
Definition gets {A} (f : World → A) : Py A := λ w, (Ok (f w), w).

Definition set_message_id (id : Z) : Py unit := λ w,
  (Ok tt, mkWorld (current_status w) id (stdout w) (api_calls w)).

(** [for x in xs: body(x)]. *)
Fixpoint for_each {A} (xs : list A) (body : A → Py unit) : Py unit :=
  match xs with
  | [] => mret tt
  | x :: rest => body x ;; for_each rest body
  end.

(** ** Module constants *)

(** [int(os.getenv("STATUS_MESSAGE_ID", "0"))], from the variable's integer
    value when it is set. *)
Definition STATUS_MESSAGE_ID (env : option Z) : Z := default 0 env.

Definition initial_status : gmap string ComponentStatus :=
  {[ "admin" := mkStatus "Offline" None "🔴";
     "usermode" := mkStatus "Offline" None "🔴";
     "server" := mkStatus "Offline" None "🔴" ]}.

Definition initial_world (env : option Z) : World :=
  mkWorld initial_status (STATUS_MESSAGE_ID env) [] [].

Definition STATUS_OPTIONS : gmap string (gmap string string) :=
  {[ "admin" := {[ "Online" := "🟢"; "Busy" := "🟡"; "Sleeping" := "🟠"; "Offline" := "🔴" ]};
     "usermode" := {[ "Online" := "🟢"; "Updating" := "🟡"; "Offline" := "🔴" ]};
     "server" := {[ "Online" := "🟢"; "Medium" := "🟡"; "Offline" := "🔴" ]} ]}.

Definition get_status_color (category status : string) : string :=
  default "⚪" (default ∅ (STATUS_OPTIONS !! category) !! status).

(** ** The clock *)

Definition digit (n : nat) : string :=
  String (ascii_of_nat (48 + n `mod` 10)) EmptyString.

Definition pad2 (n : nat) : string := digit (n / 10) +:+ digit n.
Definition pad4 (n : nat) : string := pad2 (n / 100) +:+ pad2 n.

(** [d.strftime("%Y-%m-%d %H:%M:%S")]. *)
Definition strftime (d : DateTime) : string :=
  pad4 (year d) +:+ "-" +:+ pad2 (month d) +:+ "-" +:+ pad2 (day d) +:+ " " +:+
  pad2 (hour d) +:+ ":" +:+ pad2 (minute d) +:+ ":" +:+ pad2 (second d).

(** ** The renderer *)

Definition newline : string := String (ascii_of_nat 10) EmptyString.

(** [x or d] for an optional string: [None] and the empty string are falsy. *)
Definition or_else (x : option string) (d : string) : string :=
  match x with
  | None => d
  | Some EmptyString => d
  | Some s => s
  end.

(** The f-string of a field's [value]. *)
Definition field_body (entry : ComponentStatus) : string :=
  "**Status:** " +:+ status entry +:+ newline +:+
  "**Last Update:** " +:+ or_else (last_update entry) "Never".

Definition add_field (e : Embed) (name value : string) (inline : bool) : Embed :=
  mkEmbed (title e) (description e) (embed_color e) (timestamp e)
          (fields e ++ [mkField name value inline]) (footer e).

Definition set_color (e : Embed) (c : Z) : Embed :=
  mkEmbed (title e) (description e) c (timestamp e) (fields e) (footer e).

Definition set_footer (e : Embed) (text : string) : Embed :=
  mkEmbed (title e) (description e) (embed_color e) (timestamp e) (fields e) (Some text).

(** [current_status.values()]. *)
Definition values (m : gmap string ComponentStatus) : list ComponentStatus :=
  (map_to_list m).*2.

(** Lines 89-100: the overall health text and its accent colour. *)
Definition health_of (vs : list ComponentStatus) : string * Z :=
  let all_online := forallb (λ s, bool_decide (status s ∈ ["Online"])) vs in
  let any_offline := existsb (λ s, bool_decide (status s = "Offline")) vs in
  if all_online then ("✅ All Systems Operational", 0x57F287)
  else if any_offline then ("🔴 Critical Issues Detected", 0xED4245)
  else ("⚠️ Some Systems Degraded", 0xFEE75C).

(** [now] is the reading of [datetime.datetime.now()]. *)
Definition create_status_embed (now : DateTime) : Py Embed :=
  let embed := mkEmbed "🖥️ Sysware System Status"
                       "Real-time system component status monitoring"
                       0x5865F2 now [] None in
  admin ← get_entry "admin";
  let embed := add_field embed (color admin +:+ " Admin Status") (field_body admin) false in
  usermode ← get_entry "usermode";
  let embed := add_field embed (color usermode +:+ " User Mode") (field_body usermode) false in
  server ← get_entry "server";
  let embed := add_field embed (color server +:+ " Server") (field_body server) false in
  vs ← gets (λ w, values (current_status w));
  let '(health, health_color) := health_of vs in
  let embed := set_color embed health_color in
  let embed := set_footer embed (health +:+ " • Auto-updates every 30s") in
  mret embed.

(** ** The fetcher *)

(** What the GET gives: the request fails, or a response arrives with its
    status code and with what [response.json()] gives once awaited. *)
Inductive HttpOutcome : Type :=
  | ConnectFailed (e : exn)
  | Response (code : Z) (body : Res json).

(** [key in data], for a string [key]. *)
Definition contains (data : json) (key : string) : Res bool :=
  match data with
  | JObj m => Ok (bool_decide (is_Some (m !! key)))
  | JArr l => Ok (existsb (json_eq_str key) l)
  | JStr s => Ok (str_contains key s)
  | JNull | JBool _ | JInt _ | JFloat _ => Raise TypeError
  end.

(** [data[key]], for a string [key]. *)
Definition getitem (data : json) (key : string) : Res json :=
  match data with
  | JObj m =>
      match m !! key with
      | Some v => Ok v
      | None => Raise (KeyError key)
      end
  | _ => Raise TypeError
  end.

(** Looking [x] up in a dictionary with string keys hashes [x] first: a list
    or a dictionary is unhashable, and of the hashable values only a string
    can be equal to a key. *)
Definition hash_key (x : json) : Res (option string) :=
  match x with
  | JStr s => Ok (Some s)
  | JArr _ | JObj _ => Raise TypeError
  | JNull | JBool _ | JInt _ | JFloat _ => Ok None
  end.

Definition COMPONENTS : list string := ["admin"; "usermode"; "server"].

(** The body of the loop at lines 118-126.  [now component] is the reading
    of the clock at line 125 in the iteration for [component]. *)
Definition update_component (now : string → DateTime) (data : json) (component : string) : Py unit :=
  present ← lift (contains data component);
  if present : bool then
    new_status ← lift (getitem data component);
    key ← lift (hash_key new_status);
    match key with
    | Some new_status =>
        if bool_decide (is_Some (default ∅ (STATUS_OPTIONS !! component) !! new_status)) then
          entry ← get_entry component;
          if bool_decide (status entry ≠ new_status) then
            set_entry component (λ e, mkStatus new_status (last_update e) (color e));;
            set_entry component (λ e, mkStatus (status e) (last_update e)
                                               (get_status_color component new_status));;
            set_entry component (λ e, mkStatus (status e) (Some (strftime (now component)))
                                               (color e));;
            print (UpdatedTo component new_status)
          else mret tt
        else mret tt
    | None => mret tt
    end
  else mret tt.

Definition fetch_status_from_github (now : string → DateTime) (http : HttpOutcome) : Py bool :=
  try_except
    (match http with
     | ConnectFailed e => raise e
     | Response code body =>
         if bool_decide (code = 200) then
           data ← lift body;
           print (FetchedStatus data);;
           for_each COMPONENTS (update_component now data);;
           mret true
         else
           print (FailedHTTP code);;
           mret false
     end)
    (λ e, print (ErrorFetching e);; mret false).

(** ** The publisher *)

(** What the chat platform answers during one call.  A message is known by
    its identifier. *)
Record Platform : Type := mkPlatform {
  get_channel : option Z;               (* bot.get_channel(CHANNEL_ID), [None] when unknown *)
  fetch_message : Z → Res Z;            (* channel.fetch_message(id) *)
  edit_message : Z → Embed → Res unit;  (* message.edit(embed=...) *)
  send_embed : Embed → Res Z;           (* ctx.send(embed=...): the new message *)
  send_text : Res Z                     (* ctx.send(text) *)
}.

(** Truth value of an [int]. *)
Definition truthy (z : Z) : bool := negb (Z.eqb z 0).

Definition update_status_message (p : Platform) (now : DateTime) : Py unit :=
  match get_channel p with
  | None => print ChannelNotFound
  | Some channel =>
      embed ← create_status_embed now;
      try_except
        (id ← gets status_message_id;
         if truthy id && bool_decide (id ≠ 0) then
           try_except
             (call_api (FetchMessage id);;
              message ← lift (fetch_message p id);
              call_api (EditMessage message embed);;
              lift (edit_message p message embed);;
              print (UpdatedMessage id))
             (λ e, match e with
                   | NotFound => print (MessageNotFound id)
                   | _ => print (ErrorEditing e)
                   end)
         else print NoMessageIdSet)
        (λ e, print (ErrorUpdating e))
  end.

(** The [setstatus] command, once the permission check of its decorator has
    passed. *)
Definition create_initial_status (p : Platform) (now : DateTime) : Py unit :=
  embed ← create_status_embed now;
  call_api (SendEmbed embed);;
  message ← lift (send_embed p embed);
  set_message_id message;;
  call_api (SendCreated message);;
  lift (send_text p);;
  mret tt.

(** One run of the 30-second task. *)
Definition auto_update_status (now : string → DateTime) (http : HttpOutcome)
    (p : Platform) (now' : DateTime) : Py unit :=
  fetch_status_from_github now http;;
  update_status_message p now'.

(** The worlds the process can be in: the one built at import, and those
    reached from it by running the functions above, whatever the network,
    the platform and the clock answer. *)
Inductive reachable : World → Prop :=
  | reach_init env :
      reachable (initial_world env)
  | reach_fetch now http w :
      reachable w → reachable (fetch_status_from_github now http w).2
  | reach_publish p now w :
      reachable w → reachable (update_status_message p now w).2
  | reach_setup p now w :
      reachable w → reachable (create_initial_status p now w).2.

(** ** Vocabulary of the statements *)

(** The value is one of the keys of the component's table. *)
Definition allowed (component value : string) : Prop :=
  is_Some (default ∅ (STATUS_OPTIONS !! component) !! value).

(** Arrays and objects: the values [hash] rejects. *)
Definition unhashable (v : json) : bool :=
  match v with
  | JArr _ | JObj _ => true
  | _ => false
  end.

(** The components that the loop visits before [c]. *)
Fixpoint before (c : string) (l : list string) : list string :=
  match l with
  | [] => []
  | x :: rest => if decide (x = c) then [] else x :: before c rest
  end.

(** The update lines about component [c]. *)
Definition is_update_of (c : string) (l : Line) : bool :=
  match l with
  | UpdatedTo c' _ => bool_decide (c' = c)
  | _ => false
  end.

(** Every component has an entry. *)
Definition complete (σ : gmap string ComponentStatus) : Prop :=
  ∀ c, c ∈ COMPONENTS → is_Some (σ !! c).

(** A request that creates a message. *)
Definition creates (c : ApiCall) : bool :=
  match c with
  | SendEmbed _ | SendCreated _ => true
  | FetchMessage _ | EditMessage _ _ => false
  end.

(** The world after the three assignments and the print of lines 123-126. *)
Definition updated_world (now : string → DateTime) (c s : string) (w : World) : World :=
  mkWorld (<[c := mkStatus s (Some (strftime (now c))) (get_status_color c s)]> (current_status w))
          (status_message_id w) (stdout w ++ [UpdatedTo c s]) (api_calls w).

(** The update of lines 123-126 happens for the value [s]. *)
Definition fires (data : json) (c : string) (w : World) (s : string) : Prop :=
  ∃ m e, data = JObj m ∧ m !! c = Some (JStr s) ∧ allowed c s ∧
         current_status w !! c = Some e ∧ status e ≠ s.

(** The glyph of an entry is the table's glyph for its status; in particular
    the status is a key of the component's table. *)
Definition consistent (c : string) (e : ComponentStatus) : Prop :=
  default ∅ (STATUS_OPTIONS !! c) !! status e = Some (color e).

Definition store_ok (σ : gmap string ComponentStatus) : Prop :=
  ∀ c, c ∈ COMPONENTS → ∃ e, σ !! c = Some e ∧ consistent c e.

(** The embed built from the three entries and the values of the store. *)
Definition rendered (now : DateTime) (admin usermode server : ComponentStatus)
    (vs : list ComponentStatus) : Embed :=
  mkEmbed "🖥️ Sysware System Status"
          "Real-time system component status monitoring"
          (health_of vs).2 now
          [ mkField (color admin +:+ " Admin Status") (field_body admin) false;
            mkField (color usermode +:+ " User Mode") (field_body usermode) false;
            mkField (color server +:+ " Server") (field_body server) false ]
          (Some ((health_of vs).1 +:+ " • Auto-updates every 30s")).

(** The publisher, once the channel is known and the embed is built. *)
Definition publish_embed (p : Platform) (embed : Embed) (w : World) : World :=
  let id := status_message_id w in
  if truthy id && bool_decide (id ≠ 0) then
    let w1 := (call_api (FetchMessage id) w).2 in
    match fetch_message p id with
    | Ok message =>
        let w2 := (call_api (EditMessage message embed) w1).2 in
        match edit_message p message embed with
        | Ok _ => (print (UpdatedMessage id) w2).2
        | Raise NotFound => (print (MessageNotFound id) w2).2
        | Raise e => (print (ErrorEditing e) w2).2
        end
    | Raise NotFound => (print (MessageNotFound id) w1).2
    | Raise e => (print (ErrorEditing e) w1).2
    end
  else (print NoMessageIdSet w).2.

(** The text that [json.loads] gives for the JSON string "\ud800": one lone
    surrogate, U+D800. *)
Definition lone_surrogate : string :=
  String (ascii_of_nat 0xED) (String (ascii_of_nat 0xA0) (String (ascii_of_nat 0x80)
    EmptyString)).

(** A clock reading for the examples. *)
Definition t0 : DateTime := mkDateTime 2024 1 15 9 30 5.

(** A platform that does not know the channel. *)
Definition no_channel : Platform :=
  mkPlatform None (λ _, Raise NotFound) (λ _ _, Ok tt) (λ _, Ok 1) (Ok 2).

(** A platform that knows the channel and none of its messages. *)
Definition no_message : Platform :=
  mkPlatform (Some 1460911777939194081) (λ _, Raise NotFound) (λ _ _, Ok tt) (λ _, Ok 1) (Ok 2).

(** The clock readings of years with four digits, with the fields in the
    ranges that [datetime] keeps them in. *)
Definition valid_datetime (d : DateTime) : Prop :=
  (1000 ≤ Z.of_nat (year d) ≤ 9999)%Z ∧
  (1 ≤ month d ≤ 12 ∧ 1 ≤ day d ≤ 31 ∧ hour d ≤ 23 ∧ minute d ≤ 59 ∧ second d ≤ 59)%nat.

(** A platform that knows the channel and on which every request succeeds;
    [fetch_message] answers with the message asked for. *)
Definition working : Platform :=
  mkPlatform (Some 1460911777939194081) (λ id, Ok id) (λ _ _, Ok tt) (λ _, Ok 1) (Ok 2).

(** ** Running the monad *)

Ltac py_unfold :=
  unfold mbind, Py_bind, mret, Py_ret, lift, gets, print, call_api, raise,
    try_except, set_message_id, get_entry in *.

Lemma world_eta w :
  mkWorld (current_status w) (status_message_id w) (stdout w) (api_calls w) = w.
Proof. by destruct w. Qed.

Lemma set_entry_run c f w e :
  current_status w !! c = Some e →
  set_entry c f w =
    (Ok tt, mkWorld (<[c := f e]> (current_status w)) (status_message_id w)
                    (stdout w) (api_calls w)).
Proof. intros H. unfold set_entry. by rewrite H. Qed.

(** The components and the keys of the tables are plain text. *)
Lemma allowed_encodable c s : allowed c s → encodable (UpdatedTo c s) = true.
Proof.
  assert (map_Forall (λ (c : string) (t : gmap string string),
            utf8_valid c = true ∧
            map_Forall (λ (s : string) (_ : string), utf8_valid s = true) t)
            STATUS_OPTIONS) as H.
  { apply (bool_decide_unpack _). by vm_compute. }
  unfold allowed. destruct (STATUS_OPTIONS !! c) as [t|] eqn:Ht; simpl.
  - intros [g Hg]. destruct (H c t Ht) as [Hc Hs]. by rewrite Hc, (Hs s g Hg).
  - by rewrite lookup_empty; intros [? ?].
Qed.

(** The loop body, case by case. *)
Lemma update_component_eq now data c w :
  update_component now data c w =
  match contains data c with
  | Raise e => (Raise e, w)
  | Ok false => (Ok tt, w)
  | Ok true =>
      match getitem data c with
      | Raise e => (Raise e, w)
      | Ok v =>
          match hash_key v with
          | Raise e => (Raise e, w)
          | Ok None => (Ok tt, w)
          | Ok (Some s) =>
              if bool_decide (allowed c s) then
                match current_status w !! c with
                | None => (Raise (KeyError c), w)
                | Some e =>
                    if bool_decide (status e ≠ s) then (Ok tt, updated_world now c s w)
                    else (Ok tt, w)
                end
              else (Ok tt, w)
          end
      end
  end.
Proof.
  unfold update_component, allowed. py_unfold.
  destruct (contains data c) as [[|]|]; try done.
  destruct (getitem data c) as [v|]; try done.
  destruct (hash_key v) as [[s|]|]; try done.
  case_bool_decide as Hal; try done.
  destruct (current_status w !! c) as [e|] eqn:He; try done.
  case_bool_decide; try done.
  erewrite set_entry_run by done. simpl.
  erewrite set_entry_run by (simpl; apply lookup_insert_eq). simpl.
  erewrite set_entry_run by (simpl; apply lookup_insert_eq). simpl.
  pose proof (allowed_encodable c s Hal) as Henc. simpl in Henc. rewrite Henc.
  unfold updated_world, emit. simpl. by rewrite !insert_insert_eq.
Qed.

Ltac step_cases now data c w :=
  rewrite (update_component_eq now data c w);
  repeat case_match; simplify_eq/=; try done.

Lemma update_component_fires now data c w s :
  fires data c w s →
  update_component now data c w = (Ok tt, updated_world now c s w).
Proof.
  intros (m & e & -> & Hm & Hal & He & Hne).
  rewrite update_component_eq. simpl. rewrite Hm, He. simpl.
  by rewrite !bool_decide_eq_true_2.
Qed.

Lemma update_component_quiet now data c w :
  (∀ s, ¬ fires data c w s) → (update_component now data c w).2 = w.
Proof.
  intros Hq. step_cases now data c w.
  exfalso.
  destruct data; simplify_eq/=. repeat case_match; simplify_eq/=.
  match goal with H : hash_key ?a = _ |- _ => destruct a; simplify_eq/= end.
  eapply Hq. do 2 eexists. split_and!; try done.
  - by eapply bool_decide_eq_true_1.
  - by eapply bool_decide_eq_true_1.
Qed.

(** An iteration that raises has changed nothing. *)
Lemma update_component_raise now data c w e w' :
  update_component now data c w = (Raise e, w') → w' = w.
Proof. step_cases now data c w; by intros [= <-]. Qed.

Lemma update_component_globals now data c w :
  status_message_id (update_component now data c w).2 = status_message_id w ∧
  api_calls (update_component now data c w).2 = api_calls w.
Proof. step_cases now data c w. Qed.

Lemma update_component_other now data c w k :
  k ≠ c →
  current_status (update_component now data c w).2 !! k = current_status w !! k.
Proof. intros Hk. step_cases now data c w. by rewrite lookup_insert_ne. Qed.

Lemma update_component_present now data c w k :
  is_Some (current_status (update_component now data c w).2 !! k) ↔
  is_Some (current_status w !! k).
Proof.
  step_cases now data c w.
  rewrite lookup_insert_is_Some. split.
  - intros [<-|[_ ?]]; eauto.
  - intros ?. destruct (decide (c = k)); eauto.
Qed.

Lemma update_component_stdout now data c w :
  ∃ lines : list Line, stdout (update_component now data c w).2 = (stdout w ++ lines)%list ∧
           ∀ k, k ≠ c → filter (λ l, is_update_of k l) lines = [].
Proof.
  step_cases now data c w; try (exists []; by rewrite app_nil_r).
  eexists. split; [done|]. intros k Hk.
  rewrite filter_cons_False; [done|].
  simpl. rewrite bool_decide_eq_false_2; [by intros []|congruence].
Qed.

(** The outcome of an iteration for [c] depends on the store only through
    the entry of [c]; after an iteration that returned, neither clock
    reading makes a second one change anything. *)
Lemma update_component_again now now' data c w w' :
  current_status w' !! c = current_status (update_component now data c w).2 !! c →
  (update_component now' data c w').2 = w' ∧
  ((update_component now' data c w').1 = Ok tt ↔ (update_component now data c w).1 = Ok tt).
Proof.
  rewrite (update_component_eq now data c w), (update_component_eq now' data c w').
  repeat case_match; simplify_eq/=; try done; intros Heq; simplify_eq/=; try done.
  all: rewrite ?lookup_insert_eq in *; simplify_eq/=.
  all: repeat match goal with
         | H : bool_decide _ = true |- _ => apply bool_decide_eq_true_1 in H
         | H : bool_decide _ = false |- _ => apply bool_decide_eq_false_1 in H
         end; try congruence; try naive_solver.
  match goal with
  | H1 : ?x = Some _, H2 : Some _ = ?x |- _ => rewrite H1 in H2; simplify_eq
  end.
  done.
Qed.

(** ** The store invariant *)

Lemma allowed_color c s :
  allowed c s → default ∅ (STATUS_OPTIONS !! c) !! s = Some (get_status_color c s).
Proof. unfold allowed, get_status_color. by intros [g ->]. Qed.

Lemma update_component_ok now data c w :
  store_ok (current_status w) →
  store_ok (current_status (update_component now data c w).2).
Proof.
  intros Hok. step_cases now data c w.
  intros k Hk. destruct (decide (k = c)) as [->|Hne].
  - rewrite lookup_insert_eq. eexists. split; [done|].
    apply allowed_color. by eapply bool_decide_eq_true_1.
  - rewrite lookup_insert_ne by done. by apply Hok.
Qed.

(** ** The loop *)

Lemma for_each_cons {A} (x : A) l f w :
  for_each (x :: l) f w =
  match f x w with
  | (Ok _, w') => for_each l f w'
  | (Raise e, w') => (Raise e, w')
  end.
Proof. done. Qed.

Lemma for_each_app {A} (l1 l2 : list A) f w :
  for_each (l1 ++ l2) f w =
  match for_each l1 f w with
  | (Ok _, w') => for_each l2 f w'
  | (Raise e, w') => (Raise e, w')
  end.
Proof.
  revert w. induction l1 as [|x l1 IH]; intros w; [done|].
  rewrite <- app_comm_cons, !for_each_cons.
  destruct (f x w) as [[[]|e] w1]; [apply IH|done].
Qed.

Section loop.
Context (now : string → DateTime) (data : json).

Local Abbreviation loop l := (for_each l (update_component now data)).

Lemma loop_globals l w :
  status_message_id (loop l w).2 = status_message_id w ∧
  api_calls (loop l w).2 = api_calls w.
Proof.
  revert w. induction l as [|c l IH]; intros w; [done|].
  pose proof (update_component_globals now data c w) as [H1 H2].
  rewrite for_each_cons.
  destruct (update_component now data c w) as [[[]|?] w1]; simpl in *; [|done].
  destruct (IH w1) as [-> ->]. done.
Qed.

Lemma loop_other l w k :
  k ∉ l → current_status (loop l w).2 !! k = current_status w !! k.
Proof.
  revert w. induction l as [|c l IH]; intros w Hk; [done|].
  apply not_elem_of_cons in Hk as [Hkc Hkl].
  pose proof (update_component_other now data c w k Hkc) as H1.
  rewrite for_each_cons.
  destruct (update_component now data c w) as [[[]|?] w1]; simpl in *; [|done].
  by rewrite IH.
Qed.

Lemma loop_present l w k :
  is_Some (current_status (loop l w).2 !! k) ↔ is_Some (current_status w !! k).
Proof.
  revert w. induction l as [|c l IH]; intros w; [done|].
  pose proof (update_component_present now data c w k) as H1.
  rewrite for_each_cons.
  destruct (update_component now data c w) as [[[]|?] w1]; simpl in *; [|done].
  by rewrite IH.
Qed.

Lemma loop_ok l w :
  store_ok (current_status w) → store_ok (current_status (loop l w).2).
Proof.
  revert w. induction l as [|c l IH]; intros w Hok; [done|].
  pose proof (update_component_ok now data c w Hok) as H1.
  rewrite for_each_cons.
  destruct (update_component now data c w) as [[[]|?] w1]; simpl in *; [|done].
  by apply IH.
Qed.

Lemma loop_stdout l w :
  ∃ lines : list Line,
    stdout (loop l w).2 = (stdout w ++ lines)%list ∧
    ∀ k, k ∉ l → filter (λ x, is_update_of k x) lines = [].
Proof.
  revert w. induction l as [|c l IH]; intros w.
  { exists []. by rewrite app_nil_r. }
  destruct (update_component_stdout now data c w) as (l1 & H1 & H1').
  rewrite for_each_cons.
  destruct (update_component now data c w) as [[[]|?] w1]; simpl in *.
  - destruct (IH w1) as (l2 & H2 & H2'). exists (l1 ++ l2)%list.
    rewrite H2, H1, app_assoc. split; [done|]. intros k Hk.
    apply not_elem_of_cons in Hk as [Hkc Hkl].
    by rewrite filter_app, H1', H2'.
  - exists l1. split; [done|]. intros k Hk.
    apply not_elem_of_cons in Hk as [Hkc Hkl]. by apply H1'.
Qed.

(** On an object whose values under the keys of [l] are hashable, and with
    an entry for each of them, the loop returns. *)
Lemma loop_returns (m : gmap string json) l w :
  data = JObj m →
  (∀ c v, c ∈ l → m !! c = Some v → unhashable v = false) →
  (∀ c, c ∈ l → is_Some (current_status w !! c)) →
  (loop l w).1 = Ok tt.
Proof.
  intros ->. revert w. induction l as [|c l IH]; intros w Hh Hp; [done|].
  rewrite for_each_cons.
  destruct (update_component now (JObj m) c w) as [[[]|e] w1] eqn:Hstep.
  - apply IH.
    + intros c' v Hc'. apply Hh. by right.
    + intros c' Hc'.
      pose proof (update_component_present now (JObj m) c w c') as Hpr.
      rewrite Hstep in Hpr. apply Hpr, Hp. by right.
  - exfalso. revert Hstep. rewrite update_component_eq. simpl.
    destruct (Hp c) as [e' He']; [by left|]. rewrite He'.
    destruct (m !! c) as [v|] eqn:Hv; simpl; [|done].
    specialize (Hh c v (ltac:(by left)) Hv).
    destruct v; simplify_eq/=; repeat case_match; done.
Qed.

(** Running the loop a second time, with any clock, leaves the store as
    the first run left it. *)
Lemma loop_again now' l w w' :
  NoDup l →
  (∀ c, c ∈ l → current_status w' !! c = current_status (loop l w).2 !! c) →
  current_status (for_each l (update_component now' data) w').2 = current_status w'.
Proof.
  revert w w'. induction l as [|c l IH]; intros w w' Hnd Heq; [done|].
  apply NoDup_cons in Hnd as [Hc Hnd].
  rewrite for_each_cons in Heq. rewrite for_each_cons.
  destruct (update_component_again now now' data c w w') as [Hw' Hr].
  { rewrite Heq by (by left).
    destruct (update_component now data c w) as [[[]|?] w1]; simpl; [|done].
    by apply loop_other. }
  destruct (update_component now' data c w') as [[[]|?] w1'] eqn:Hstep'; simpl in *;
    subst w1'; [|done].
  destruct (update_component now data c w) as [[[]|?] w1]; simpl in *.
  - apply (IH w1); [done|]. intros c' Hc'. apply Heq. by right.
  - by destruct Hr as [Hr _]; specialize (Hr eq_refl).
Qed.
End loop.

(** ** The fetcher, branch by branch *)

Lemma fetch_200_eq now data w :
  fetch_status_from_github now (Response 200 (Ok data)) w =
  if encodable (FetchedStatus data) then
    match for_each COMPONENTS (update_component now data) (emit (FetchedStatus data) w) with
    | (Ok _, w') => (Ok true, w')
    | (Raise e, w') => (Ok false, emit (ErrorFetching e) w')
    end
  else (Ok false, emit (ErrorFetching UnicodeEncodeError) w).
Proof.
  unfold fetch_status_from_github, try_except, mbind, Py_bind, lift.
  rewrite bool_decide_eq_true_2 by done.
  unfold print at 1. destruct (encodable (FetchedStatus data)); [|done].
  by destruct (for_each _ _ _) as [[[]|?] ?].
Qed.

(** The same for a body that is an object, which can always be printed. *)
Lemma fetch_object_eq now (m : gmap string json) w :
  fetch_status_from_github now (Response 200 (Ok (JObj m))) w =
  match for_each COMPONENTS (update_component now (JObj m)) (emit (FetchedStatus (JObj m)) w) with
  | (Ok _, w') => (Ok true, w')
  | (Raise e, w') => (Ok false, emit (ErrorFetching e) w')
  end.
Proof. by rewrite fetch_200_eq. Qed.

Lemma fetch_connect_eq now e w :
  fetch_status_from_github now (ConnectFailed e) w =
  (Ok false, (print (ErrorFetching e) w).2).
Proof. done. Qed.

Lemma fetch_body_eq now e w :
  fetch_status_from_github now (Response 200 (Raise e)) w =
  (Ok false, (print (ErrorFetching e) w).2).
Proof. done. Qed.

Lemma fetch_status_eq now code body w :
  code ≠ 200 →
  fetch_status_from_github now (Response code body) w =
  (Ok false, (print (FailedHTTP code) w).2).
Proof.
  intros Hc. unfold fetch_status_from_github. py_unfold.
  by rewrite bool_decide_eq_false_2.
Qed.

(** The four branches, as a case distinction on the answer of the GET. *)
Lemma http_cases (http : HttpOutcome) :
  (∃ e, http = ConnectFailed e) ∨
  (∃ code body, http = Response code body ∧ code ≠ 200) ∨
  (∃ e, http = Response 200 (Raise e)) ∨
  (∃ data, http = Response 200 (Ok data)).
Proof.
  destruct http as [e|code body]; [eauto|].
  destruct (decide (code = 200)) as [->|]; [|naive_solver].
  destruct body; naive_solver.
Qed.

Lemma fetch_globals now http w :
  status_message_id (fetch_status_from_github now http w).2 = status_message_id w ∧
  api_calls (fetch_status_from_github now http w).2 = api_calls w.
Proof.
  destruct (http_cases http) as [[e ->]|[(code & body & -> & Hc)|[[e ->]|[data ->]]]].
  - done.
  - by rewrite fetch_status_eq.
  - done.
  - rewrite fetch_200_eq. destruct (encodable (FetchedStatus data)); [|done].
    pose proof (loop_globals now data COMPONENTS (emit (FetchedStatus data) w)) as H.
    by destruct (for_each _ _ _) as [[[]|?] ?].
Qed.

Lemma fetch_ok now http w :
  store_ok (current_status w) →
  store_ok (current_status (fetch_status_from_github now http w).2).
Proof.
  intros Hok.
  destruct (http_cases http) as [[e ->]|[(code & body & -> & Hc)|[[e ->]|[data ->]]]].
  - done.
  - by rewrite fetch_status_eq.
  - done.
  - rewrite fetch_200_eq. destruct (encodable (FetchedStatus data)); [|done].
    pose proof (loop_ok now data COMPONENTS (emit (FetchedStatus data) w) Hok) as H.
    by destruct (for_each _ _ _) as [[[]|?] ?].
Qed.

(** ** The renderer, run *)

Lemma create_status_embed_eq now w :
  create_status_embed now w =
  match current_status w !! "admin", current_status w !! "usermode",
        current_status w !! "server" with
  | Some a, Some u, Some s => (Ok (rendered now a u s (values (current_status w))), w)
  | None, _, _ => (Raise (KeyError "admin"), w)
  | Some _, None, _ => (Raise (KeyError "usermode"), w)
  | Some _, Some _, None => (Raise (KeyError "server"), w)
  end.
Proof.
  unfold create_status_embed, rendered. py_unfold.
  destruct (current_status w !! "admin"); [|done].
  destruct (current_status w !! "usermode"); [|done].
  destruct (current_status w !! "server"); [|done].
  by destruct (health_of _).
Qed.

Lemma create_status_embed_world now w : (create_status_embed now w).2 = w.
Proof. rewrite create_status_embed_eq. by repeat case_match. Qed.

Lemma store_ok_complete σ : store_ok σ → complete σ.
Proof. intros Hok c Hc. destruct (Hok c Hc) as (e & -> & _). by eexists. Qed.

Lemma create_status_embed_complete now w :
  complete (current_status w) →
  ∃ a u s,
    current_status w !! "admin" = Some a ∧
    current_status w !! "usermode" = Some u ∧
    current_status w !! "server" = Some s ∧
    create_status_embed now w = (Ok (rendered now a u s (values (current_status w))), w).
Proof.
  intros Hc. rewrite create_status_embed_eq.
  destruct (Hc "admin") as [a ->]; [set_solver|].
  destruct (Hc "usermode") as [u ->]; [set_solver|].
  destruct (Hc "server") as [s ->]; [set_solver|].
  by exists a, u, s.
Qed.

(** ** The publisher and the setup command, run *)

Lemma update_status_message_eq p now w :
  update_status_message p now w =
  match get_channel p with
  | None => (Ok tt, (print ChannelNotFound w).2)
  | Some _ =>
      match create_status_embed now w with
      | (Ok embed, _) => (Ok tt, publish_embed p embed w)
      | (Raise e, _) => (Raise e, w)
      end
  end.
Proof.
  unfold update_status_message, publish_embed.
  destruct (get_channel p); [|done].
  pose proof (create_status_embed_world now w) as Hw.
  unfold mbind at 1. unfold Py_bind at 1.
  destruct (create_status_embed now w) as [[embed|e] w1]; simpl in Hw; subst w1; [|done].
  py_unfold. simpl.
  destruct (truthy _ && _); [|done].
  destruct (fetch_message p _) as [message|[]]; try done.
  by destruct (edit_message p message embed) as [[]|[]].
Qed.

Lemma publish_embed_store p embed w :
  current_status (publish_embed p embed w) = current_status w ∧
  status_message_id (publish_embed p embed w) = status_message_id w.
Proof. unfold publish_embed. by repeat case_match. Qed.

Lemma update_status_message_store p now w :
  current_status (update_status_message p now w).2 = current_status w ∧
  status_message_id (update_status_message p now w).2 = status_message_id w.
Proof.
  rewrite update_status_message_eq. repeat case_match; try done.
  apply publish_embed_store.
Qed.

Lemma create_initial_status_store p now w :
  current_status (create_initial_status p now w).2 = current_status w.
Proof.
  unfold create_initial_status.
  pose proof (create_status_embed_world now w) as Hw.
  unfold mbind at 1. unfold Py_bind at 1.
  destruct (create_status_embed now w) as [[embed|e] w1]; simpl in Hw; subst w1; [|done].
  py_unfold. simpl. by repeat case_match.
Qed.

(** ** Every reachable store is consistent *)

Lemma initial_status_ok : store_ok initial_status.
Proof.
  intros c Hc. unfold COMPONENTS in Hc.
  repeat (apply elem_of_cons in Hc as [->|Hc]); [..|by apply elem_of_nil in Hc];
    by eexists.
Qed.

Lemma reachable_ok w : reachable w → store_ok (current_status w).
Proof.
  induction 1 as [env|now http w _ IH|p now w _ IH|p now w _ IH].
  - apply initial_status_ok.
  - by apply fetch_ok.
  - by destruct (update_status_message_store p now w) as [-> _].
  - by rewrite create_initial_status_store.
Qed.

Lemma auto_update_status_reachable now http p now' w :
  reachable w → reachable (auto_update_status now http p now' w).2.
Proof.
  intros Hw. unfold auto_update_status, mbind, Py_bind.
  pose proof (reach_fetch now http w Hw) as H1.
  destruct (fetch_status_from_github now http w) as [[b|e] w1]; simpl in *; [|done].
  by apply reach_publish.
Qed.

(** ** Keys that the loop updates, and keys that it leaves alone *)

Lemma COMPONENTS_NoDup : NoDup COMPONENTS.
Proof.
  unfold COMPONENTS. rewrite !NoDup_cons, !elem_of_cons, !elem_of_nil.
  split_and!; try apply NoDup_nil_2; intuition discriminate.
Qed.

Lemma allowed_component k s : allowed k s → k ∈ COMPONENTS.
Proof.
  unfold allowed, STATUS_OPTIONS, COMPONENTS. intros [g Hg].
  destruct (decide (k = "admin")) as [->|]; [set_solver|].
  destruct (decide (k = "usermode")) as [->|]; [set_solver|].
  destruct (decide (k = "server")) as [->|]; [set_solver|].
  rewrite !lookup_insert_ne, lookup_singleton_ne in Hg by done. done.
Qed.

Lemma fires_lookup data c w w' s :
  current_status w' !! c = current_status w !! c →
  fires data c w s → fires data c w' s.
Proof.
  intros Heq (m & e & ? & ? & ? & ? & ?). exists m, e. by rewrite Heq.
Qed.

Section keys.
Context (now : string → DateTime).

Lemma loop_quiet_key data l w k :
  NoDup l →
  (∀ s, ¬ fires data k w s) →
  current_status (for_each l (update_component now data) w).2 !! k = current_status w !! k.
Proof.
  revert w. induction l as [|c l IH]; intros w Hnd Hq; [done|].
  apply NoDup_cons in Hnd as [Hc Hnd].
  rewrite for_each_cons.
  destruct (decide (c = k)) as [->|Hne].
  - pose proof (update_component_quiet now data k w Hq) as H1.
    destruct (update_component now data k w) as [[[]|?] w1]; simpl in *; subst w1; [|done].
    by apply loop_other.
  - pose proof (update_component_other now data c w k (not_eq_sym Hne)) as H1.
    destruct (update_component now data c w) as [[[]|?] w1]; simpl in *; [|done].
    rewrite IH, H1; [done..|].
    intros s Hf. apply (Hq s). by eapply fires_lookup, Hf.
Qed.

Lemma loop_fires (m : gmap string json) l w c s :
  NoDup l → c ∈ l →
  fires (JObj m) c w s →
  (∀ c', c' ∈ l → is_Some (current_status w !! c')) →
  (∀ c' v, c' ∈ before c l → m !! c' = Some v → unhashable v = false) →
  let w' := (for_each l (update_component now (JObj m)) w).2 in
  current_status w' !! c
    = Some (mkStatus s (Some (strftime (now c))) (get_status_color c s)) ∧
  ∃ lines : list Line,
    stdout w' = (stdout w ++ lines)%list ∧
    filter (λ x, is_update_of c x) lines = [UpdatedTo c s].
Proof.
  revert w. induction l as [|x l IH]; intros w Hnd Hc Hf Hp Hh; [by apply elem_of_nil in Hc|].
  apply NoDup_cons in Hnd as [Hx Hnd]. cbv zeta. rewrite for_each_cons.
  simpl in Hh. destruct (decide (x = c)) as [->|Hne].
  - rewrite (update_component_fires now _ c w s Hf).
    pose proof (loop_other now (JObj m) l (updated_world now c s w) c Hx) as H1.
    destruct (loop_stdout now (JObj m) l (updated_world now c s w)) as (l2 & H2 & H2').
    split.
    + rewrite H1. simpl. apply lookup_insert_eq.
    + exists (UpdatedTo c s :: l2). rewrite H2. simpl. split.
      * by rewrite <- app_assoc.
      * rewrite filter_cons_True by (simpl; by rewrite bool_decide_eq_true_2).
        by rewrite H2'.
  - apply elem_of_cons in Hc as [->|Hc]; [done|].
    pose proof (loop_returns now (JObj m) m [x] w eq_refl) as Hr.
    rewrite for_each_cons in Hr.
    pose proof (update_component_other now (JObj m) x w c (not_eq_sym Hne)) as Ho.
    pose proof (update_component_present now (JObj m) x w) as Hpr.
    destruct (update_component_stdout now (JObj m) x w) as (l1 & H1 & H1').
    destruct (update_component now (JObj m) x w) as [[[]|e] w1]; simpl in *.
    + destruct (IH w1) as (Hlk & l2 & H2 & H2'); try done.
      * by eapply fires_lookup, Hf.
      * intros c' Hc'. apply Hpr, Hp. by right.
      * intros c' v Hc'. apply Hh. by right.
      * split; [done|]. exists (l1 ++ l2)%list. rewrite H2, H1, app_assoc.
        split; [done|]. rewrite filter_app, H1', H2' by done. done.
    + exfalso. assert (Raise e = Ok ()) as Habs; [|done]. apply Hr.
      * intros c' v Hc'. apply list_elem_of_singleton in Hc' as ->. apply Hh. by left.
      * intros c' Hc'. apply list_elem_of_singleton in Hc' as ->. apply Hp. by left.
Qed.
End keys.

(** ** C1: which keys a fetch updates *)

(** C1 (defect in the code): the guard of line 120 raises [TypeError] on an
    array or an object, where it skips every other value that is not a key of
    the table, and the handler of line 131 ends the loop.  On
    [{"admin": [], "usermode": "Online"}] over the initial store the call
    returns [False], and [usermode], a recognized key whose value is allowed
    and differs from the stored one, keeps its entry.  With a number under
    [admin] instead, the same key is updated. *)
Lemma fetch_skips_key_after_unhashable :
  let m : gmap string json := {[ "admin" := JArr []; "usermode" := JStr "Online" ]} in
  let m' : gmap string json := {[ "admin" := JInt 3; "usermode" := JStr "Online" ]} in
  let w := initial_world None in
  let r := fetch_status_from_github (λ _, t0) (Response 200 (Ok (JObj m))) w in
  let r' := fetch_status_from_github (λ _, t0) (Response 200 (Ok (JObj m'))) w in
  "usermode" ∈ COMPONENTS ∧
  m !! "usermode" = Some (JStr "Online") ∧
  allowed "usermode" "Online" ∧
  current_status w !! "usermode" = Some (mkStatus "Offline" None "🔴") ∧
  r.1 = Ok false ∧
  current_status r.2 !! "usermode" = Some (mkStatus "Offline" None "🔴") ∧
  stdout r.2 = [FetchedStatus (JObj m); ErrorFetching TypeError] ∧
  r'.1 = Ok true ∧
  current_status r'.2 !! "usermode"
    = Some (mkStatus "Online" (Some "2024-01-15 09:30:05") "🟢").
Proof.
  cbv zeta. split_and!.
  - unfold COMPONENTS. apply list_elem_of_further, list_elem_of_here.
  - by vm_compute.
  - unfold allowed. vm_compute. eauto.
  - by vm_compute.
  - by vm_compute.
  - by vm_compute.
  - by vm_compute.
  - by vm_compute.
  - by vm_compute.
Qed.

(** The keys that a fetch of an object updates and the keys that it leaves.
    Over a store that has the three entries, a recognized key [c] whose value
    [s] is in the component's allowed set and differs from the stored status,
    and that no recognized key holding an array or an object precedes in the
    order admin, usermode, server, gets the status [s], the table's glyph for
    [s] and the clock reading of its iteration, and exactly one update line
    is printed for it.  For every fetched object, a key that is not
    recognized, or whose value is not in the allowed set, or whose value is
    the stored status, keeps its entry. *)
Theorem fetch_updates_changed_keys now (m : gmap string json) w :
  let w' := (fetch_status_from_github now (Response 200 (Ok (JObj m))) w).2 in
  (∀ c s e,
     c ∈ COMPONENTS → m !! c = Some (JStr s) → allowed c s →
     current_status w !! c = Some e → status e ≠ s →
     complete (current_status w) →
     (∀ c' v, c' ∈ before c COMPONENTS → m !! c' = Some v → unhashable v = false) →
     current_status w' !! c
       = Some (mkStatus s (Some (strftime (now c))) (get_status_color c s)) ∧
     ∃ lines : list Line,
       stdout w' = (stdout w ++ lines)%list ∧
       filter (λ x, is_update_of c x) lines = [UpdatedTo c s]) ∧
  (∀ k,
     k ∉ COMPONENTS ∨
     (∀ s, m !! k = Some (JStr s) → ¬ allowed k s) ∨
     (∃ e, current_status w !! k = Some e ∧ m !! k = Some (JStr (status e))) →
     current_status w' !! k = current_status w !! k).
Proof.
  cbv zeta. rewrite fetch_object_eq.
  set (w0 := (emit (FetchedStatus (JObj m)) w)).
  split.
  - intros c s e Hc Hm Hal He Hne Hcomplete Hh.
    destruct (loop_fires now m COMPONENTS w0 c s) as (Hlk & lines & Hout & Hf);
      [apply COMPONENTS_NoDup|done| |done|done|].
    { by exists m, e. }
    destruct (for_each _ _ w0) as [[[]|x] w1]; simpl in *.
    + split; [done|]. exists (FetchedStatus (JObj m) :: lines).
      rewrite Hout, <- app_assoc. split; [done|].
      by rewrite filter_cons_False by (by intros []).
    + split; [done|]. exists (FetchedStatus (JObj m) :: lines ++ [ErrorFetching x])%list.
      rewrite Hout, <- !app_assoc. split; [done|].
      rewrite filter_cons_False by (by intros []).
      rewrite filter_app, Hf.
      by rewrite filter_cons_False by (by intros []).
  - intros k Hk.
    pose proof (loop_quiet_key now (JObj m) COMPONENTS w0 k COMPONENTS_NoDup) as Hq.
    destruct (for_each _ _ w0) as [[[]|x] w1]; simpl in *; apply Hq.
    all: intros s (m' & e & [= <-] & Hm & Hal & He & Hne);
      destruct Hk as [Hk|[Hk|(e' & He' & Hm')]];
      [ by apply Hk, (allowed_component k s)
      | by apply (Hk s)
      | subst w0; simpl in *; congruence ].
Qed.

Lemma fetch_updates_changed_keys_witness :
  let m : gmap string json := {[ "admin" := JStr "Online" ]} in
  let w' := (fetch_status_from_github (λ _, t0) (Response 200 (Ok (JObj m)))
               (initial_world None)).2 in
  current_status w' !! "admin"
    = Some (mkStatus "Online" (Some (strftime t0)) (get_status_color "admin" "Online")) ∧
  current_status w' !! "server" = current_status (initial_world None) !! "server".
Proof.
  cbv zeta.
  pose proof (fetch_updates_changed_keys (λ _, t0) {[ "admin" := JStr "Online" ]}
                (initial_world None)) as [Hup Hkeep].
  split.
  - refine (proj1 (Hup "admin" "Online" (mkStatus "Offline" None "🔴") _ _ _ _ _ _ _)).
    + unfold COMPONENTS. apply list_elem_of_here.
    + reflexivity.
    + unfold allowed. vm_compute. eauto.
    + reflexivity.
    + discriminate.
    + apply store_ok_complete, initial_status_ok.
    + intros c' v Hc'. simpl in Hc'. by apply elem_of_nil in Hc'.
  - apply Hkeep. right; left. intros s Hs. vm_compute in Hs. discriminate.
Defined.

(** ** The shape of reachable stores *)

Lemma fetch_present now http w k :
  is_Some (current_status (fetch_status_from_github now http w).2 !! k) ↔
  is_Some (current_status w !! k).
Proof.
  destruct (http_cases http) as [[e ->]|[(code & body & -> & Hc)|[[e ->]|[data ->]]]].
  - done.
  - by rewrite fetch_status_eq.
  - done.
  - rewrite fetch_200_eq. destruct (encodable (FetchedStatus data)); [|done].
    pose proof (loop_present now data COMPONENTS (emit (FetchedStatus data) w) k) as H.
    by destruct (for_each _ _ _) as [[[]|?] ?].
Qed.

Lemma reachable_keys w k :
  reachable w → is_Some (current_status w !! k) → k ∈ COMPONENTS.
Proof.
  induction 1 as [env|now http w _ IH|p now w _ IH|p now w _ IH].
  - simpl. unfold initial_status, COMPONENTS. intros Hk.
    destruct (decide (k = "admin")) as [->|]; [set_solver|].
    destruct (decide (k = "usermode")) as [->|]; [set_solver|].
    destruct (decide (k = "server")) as [->|]; [set_solver|].
    rewrite !lookup_insert_ne, lookup_singleton_ne in Hk by done. by destruct Hk.
  - rewrite fetch_present. apply IH.
  - by destruct (update_status_message_store p now w) as [-> _].
  - by rewrite create_initial_status_store.
Qed.

(** A reachable store has exactly the three entries. *)
Lemma reachable_shape w :
  reachable w →
  ∃ a u s, current_status w = {[ "admin" := a; "usermode" := u; "server" := s ]}.
Proof.
  intros Hr. pose proof (store_ok_complete _ (reachable_ok w Hr)) as Hc.
  destruct (Hc "admin") as [a Ha]; [set_solver|].
  destruct (Hc "usermode") as [u Hu]; [set_solver|].
  destruct (Hc "server") as [s Hs]; [set_solver|].
  exists a, u, s. apply map_eq. intros k.
  destruct (decide (k = "admin")) as [->|]; [by rewrite Ha|].
  destruct (decide (k = "usermode")) as [->|]; [by rewrite Hu|].
  destruct (decide (k = "server")) as [->|]; [by rewrite Hs|].
  rewrite !lookup_insert_ne, lookup_singleton_ne by done.
  apply eq_None_not_Some. intros Hk.
  apply (reachable_keys w k Hr) in Hk. unfold COMPONENTS in Hk.
  rewrite !elem_of_cons, elem_of_nil in Hk. intuition.
Qed.

Lemma shape_lookups w a u s :
  current_status w = {[ "admin" := a; "usermode" := u; "server" := s ]} →
  current_status w !! "admin" = Some a ∧
  current_status w !! "usermode" = Some u ∧
  current_status w !! "server" = Some s ∧
  values (current_status w) = [s; u; a].
Proof. intros ->. split_and!; by vm_compute. Qed.

Lemma create_status_embed_shape now w a u s :
  current_status w = {[ "admin" := a; "usermode" := u; "server" := s ]} →
  create_status_embed now w = (Ok (rendered now a u s [s; u; a]), w).
Proof.
  intros (Ha & Hu & Hs & Hv)%shape_lookups.
  by rewrite create_status_embed_eq, Ha, Hu, Hs, Hv.
Qed.

(** ** C2: the aggregate health *)

Lemma health_of_three a u s :
  health_of [s; u; a] =
  if bool_decide (status a = "Online" ∧ status u = "Online" ∧ status s = "Online")
  then ("✅ All Systems Operational", 0x57F287)
  else if bool_decide (status a = "Offline" ∨ status u = "Offline" ∨ status s = "Offline")
  then ("🔴 Critical Issues Detected", 0xED4245)
  else ("⚠️ Some Systems Degraded", 0xFEE75C).
Proof.
  unfold health_of. simpl.
  repeat case_bool_decide; simpl; try done;
    rewrite ?list_elem_of_singleton in *; intuition congruence.
Qed.

(** C2: over a store with the three entries the renderer returns an embed
    whose footer and accent colour follow the rules in order: all three
    statuses ['Online'] give "All Systems Operational" with 0x57F287; else any
    status ['Offline'] gives "Critical Issues Detected" with 0xED4245; else
    "Some Systems Degraded" with 0xFEE75C. *)
Theorem health_rules now w a u s :
  current_status w = {[ "admin" := a; "usermode" := u; "server" := s ]} →
  ∃ e, create_status_embed now w = (Ok e, w) ∧
    (status a = "Online" ∧ status u = "Online" ∧ status s = "Online" →
       footer e = Some "✅ All Systems Operational • Auto-updates every 30s" ∧
       embed_color e = 0x57F287) ∧
    (status a = "Offline" ∨ status u = "Offline" ∨ status s = "Offline" →
       footer e = Some "🔴 Critical Issues Detected • Auto-updates every 30s" ∧
       embed_color e = 0xED4245) ∧
    (¬ (status a = "Online" ∧ status u = "Online" ∧ status s = "Online") →
     ¬ (status a = "Offline" ∨ status u = "Offline" ∨ status s = "Offline") →
       footer e = Some "⚠️ Some Systems Degraded • Auto-updates every 30s" ∧
       embed_color e = 0xFEE75C).
Proof.
  intros Hw. eexists. split; [by apply create_status_embed_shape|].
  unfold rendered. simpl. rewrite health_of_three.
  split_and!.
  - intros Hall. by rewrite bool_decide_eq_true_2.
  - intros Hany. rewrite bool_decide_eq_false_2.
    + by rewrite bool_decide_eq_true_2.
    + intros (Ha & Hu & Hs). rewrite Ha, Hu, Hs in Hany.
      destruct Hany as [H|[H|H]]; discriminate H.
  - intros Hnall Hnany. by rewrite !bool_decide_eq_false_2.
Qed.

(** The three examples of the claim: all Online; admin Offline with the
    others Online; admin Busy with the others Online. *)
Lemma health_rules_witness :
  let on := mkStatus "Online" (Some (strftime t0)) "🟢" in
  let off := mkStatus "Offline" None "🔴" in
  let busy := mkStatus "Busy" (Some (strftime t0)) "🟡" in
  let store a := mkWorld {[ "admin" := a; "usermode" := on; "server" := on ]} 0 [] [] in
  (∃ e, create_status_embed t0 (store on) = (Ok e, store on) ∧
        footer e = Some "✅ All Systems Operational • Auto-updates every 30s" ∧
        embed_color e = 0x57F287) ∧
  (∃ e, create_status_embed t0 (store off) = (Ok e, store off) ∧
        footer e = Some "🔴 Critical Issues Detected • Auto-updates every 30s" ∧
        embed_color e = 0xED4245) ∧
  (∃ e, create_status_embed t0 (store busy) = (Ok e, store busy) ∧
        footer e = Some "⚠️ Some Systems Degraded • Auto-updates every 30s" ∧
        embed_color e = 0xFEE75C).
Proof.
  intros on off busy store. split_and!.
  - destruct (health_rules t0 (store on) on on on eq_refl) as (e & He & H1 & _ & _).
    exists e. split; [exact He|]. apply H1. repeat split; reflexivity.
  - destruct (health_rules t0 (store off) off on on eq_refl) as (e & He & _ & H2 & _).
    exists e. split; [exact He|]. apply H2. left. reflexivity.
  - destruct (health_rules t0 (store busy) busy on on eq_refl) as (e & He & _ & _ & H3).
    exists e. split; [exact He|]. apply H3.
    + intros [H _]. discriminate H.
    + intros [H|[H|H]]; discriminate H.
Defined.

(** ** C3: the store after a failing fetch *)

(** Where a raising loop stopped. *)
Lemma loop_raise now data l w e w' :
  for_each l (update_component now data) w = (Raise e, w') →
  ∃ pre c post,
    l = (pre ++ c :: post)%list ∧
    for_each pre (update_component now data) w = (Ok tt, w') ∧
    update_component now data c w' = (Raise e, w').
Proof.
  revert w. induction l as [|c l IH]; intros w; [done|].
  rewrite for_each_cons.
  destruct (update_component now data c w) as [[[]|x] w1] eqn:Hstep.
  - intros (pre & c' & post & -> & Hpre & Hc')%IH.
    exists (c :: pre), c', post. split; [done|].
    by rewrite for_each_cons, Hstep.
  - intros [= -> ->]. exists [], c, l. split; [done|].
    pose proof (update_component_raise _ _ _ _ _ _ Hstep) as ->. done.
Qed.

Lemma update_component_raise_cause now (m : gmap string json) c w e w' :
  update_component now (JObj m) c w = (Raise e, w') →
  (∃ v, m !! c = Some v ∧ unhashable v = true) ∨ current_status w !! c = None.
Proof.
  rewrite update_component_eq. simpl.
  destruct (m !! c) as [v|] eqn:Hv; simpl; [|done].
  destruct v; simpl; try done; try (intros _; left; by eexists).
  repeat case_match; try done. intros _. by right.
Qed.

Lemma not_object_quiet data c w s :
  (∀ m, data ≠ JObj m) → ¬ fires data c w s.
Proof. intros Hd (m & e & -> & _). by apply (Hd m). Qed.

Lemma loop_not_object now data l w :
  NoDup l → (∀ m, data ≠ JObj m) →
  current_status (for_each l (update_component now data) w).2 = current_status w.
Proof.
  intros Hnd Hd. apply map_eq. intros k. apply loop_quiet_key; [done|].
  intros s. by apply not_object_quiet.
Qed.

(** C3 (defect in the code): the same slip as for C1.  On
    [{"admin": "Online", "usermode": []}] over the initial store the entry of
    [admin] is written, then the guard of line 120 raises [TypeError] on the
    array under [usermode] and the call returns [False]: a failing call that
    has changed the store.  The other failing paths, here a status 500 and a
    body that cannot be read, leave the store as it was. *)
Lemma failed_fetch_keeps_earlier_update :
  let m : gmap string json := {[ "admin" := JStr "Online"; "usermode" := JArr [] ]} in
  let w := initial_world None in
  let r := fetch_status_from_github (λ _, t0) (Response 200 (Ok (JObj m))) w in
  let r500 := fetch_status_from_github (λ _, t0) (Response 500 (Ok (JObj m))) w in
  let rbody := fetch_status_from_github (λ _, t0) (Response 200 (Raise JSONDecodeError)) w in
  r.1 = Ok false ∧
  current_status w !! "admin" = Some (mkStatus "Offline" None "🔴") ∧
  current_status r.2 !! "admin"
    = Some (mkStatus "Online" (Some "2024-01-15 09:30:05") "🟢") ∧
  stdout r.2 = [FetchedStatus (JObj m); UpdatedTo "admin" "Online"; ErrorFetching TypeError] ∧
  r500.1 = Ok false ∧ current_status r500.2 = current_status w ∧
  rbody.1 = Ok false ∧ current_status rbody.2 = current_status w.
Proof. cbv zeta. split_and!; by vm_compute. Qed.

(** What a failing call leaves untouched.  It never touches the message
    identifier or the platform.  It leaves the store exactly as it was when
    the failure is a non-200 status, a network failure, a body that does not
    parse, a line that cannot be printed, or a parsed body that is not a JSON
    object.  When an object was parsed, the call fails at a recognized key
    that holds an array or an object, or that has no entry in the store, and
    the entry of that key and of every key after it in the order admin,
    usermode, server is as it was; only the keys before it can have been
    updated. *)
Theorem failed_fetch_store now http w w' :
  fetch_status_from_github now http w = (Ok false, w') →
  status_message_id w' = status_message_id w ∧
  api_calls w' = api_calls w ∧
  ((∀ m, http ≠ Response 200 (Ok (JObj m))) → current_status w' = current_status w) ∧
  (∀ m, http = Response 200 (Ok (JObj m)) →
     ∃ pre c post,
       COMPONENTS = (pre ++ c :: post)%list ∧
       ((∃ v, m !! c = Some v ∧ unhashable v = true) ∨ current_status w !! c = None) ∧
       ∀ k, k ∉ pre → current_status w' !! k = current_status w !! k).
Proof.
  intros Hrun.
  destruct (fetch_globals now http w) as [Hid Hcalls]. rewrite Hrun in Hid, Hcalls.
  split_and!; [done|done|..].
  - intros Hno.
    destruct (http_cases http) as [[e ->]|[(code & body & -> & Hc)|[[e ->]|[data ->]]]].
    + by injection Hrun as <-.
    + rewrite fetch_status_eq in Hrun by done. by injection Hrun as <-.
    + by injection Hrun as <-.
    + rewrite fetch_200_eq in Hrun.
      destruct (encodable (FetchedStatus data)); [|by injection Hrun as <-].
      pose proof (loop_not_object now data COMPONENTS (emit (FetchedStatus data) w)
                    COMPONENTS_NoDup) as Hq.
      destruct (for_each _ _ _) as [[[]|x] w1]; [done|].
      injection Hrun as <-. simpl in *. apply Hq. intros m ->. by apply (Hno m).
  - intros m ->. rewrite fetch_object_eq in Hrun.
    destruct (for_each _ _ _) as [[[]|x] w1] eqn:Hloop; [done|].
    injection Hrun as <-.
    apply loop_raise in Hloop as (pre & c & post & Hsplit & Hpre & Hc).
    exists pre, c, post. split; [done|].
    assert (∀ k, k ∉ pre → current_status w1 !! k = current_status w !! k) as Hkeep.
    { intros k Hk.
      pose proof (loop_other now (JObj m) pre (emit (FetchedStatus (JObj m)) w) k Hk) as H.
      by rewrite Hpre in H. }
    split; [|done].
    apply update_component_raise_cause in Hc as [Hv|Hnone]; [by left|right].
    rewrite <- Hkeep; [done|].
    pose proof COMPONENTS_NoDup as Hnd. rewrite Hsplit in Hnd.
    apply NoDup_app in Hnd as (_ & Hdisj & _). intros Hin.
    apply (Hdisj c Hin). by left.
Qed.

Lemma failed_fetch_store_witness :
  let m : gmap string json := {[ "admin" := JStr "Online"; "usermode" := JArr [] ]} in
  let w := initial_world None in
  let w' := (fetch_status_from_github (λ _, t0) (Response 200 (Ok (JObj m))) w).2 in
  status_message_id w' = 0 ∧
  api_calls w' = [] ∧
  ∃ pre c post,
    COMPONENTS = (pre ++ c :: post)%list ∧
    ((∃ v, m !! c = Some v ∧ unhashable v = true) ∨ current_status w !! c = None) ∧
    ∀ k, k ∉ pre → current_status w' !! k = current_status w !! k.
Proof.
  intros m w w'.
  assert (fetch_status_from_github (λ _, t0) (Response 200 (Ok (JObj m))) w = (Ok false, w'))
    as Hrun by (vm_compute; reflexivity).
  destruct (failed_fetch_store _ _ _ _ Hrun) as (Hid & Hcalls & _ & Hobj).
  split; [exact Hid|]. split; [exact Hcalls|]. exact (Hobj m eq_refl).
Defined.

(** ** C4 and C10: invariants of the reachable stores *)

Lemma component_table c :
  c ∈ COMPONENTS → ∃ table, STATUS_OPTIONS !! c = Some table.
Proof.
  unfold COMPONENTS. rewrite !elem_of_cons, elem_of_nil.
  intros [->|[->|[->|[]]]]; by eexists.
Qed.

(** No table maps a status to the fallback glyph. *)
Lemma table_glyphs c table s g :
  STATUS_OPTIONS !! c = Some table → table !! s = Some g → g ≠ "⚪".
Proof.
  assert (map_Forall (λ _ t, map_Forall (λ _ g : string, g ≠ "⚪") t) STATUS_OPTIONS) as H.
  { apply (bool_decide_unpack _). by vm_compute. }
  intros Hc Hs. exact (H c table Hc s g Hs).
Qed.

Lemma fetch_keeps now http w k :
  (∀ data s, http = Response 200 (Ok data) → ¬ fires data k w s) →
  current_status (fetch_status_from_github now http w).2 !! k = current_status w !! k.
Proof.
  intros Hq.
  destruct (http_cases http) as [[e ->]|[(code & body & -> & Hc)|[[e ->]|[data ->]]]].
  - done.
  - by rewrite fetch_status_eq.
  - done.
  - rewrite fetch_200_eq. destruct (encodable (FetchedStatus data)); [|done].
    pose proof (loop_quiet_key now data COMPONENTS (emit (FetchedStatus data) w) k
                  COMPONENTS_NoDup) as H.
    destruct (for_each _ _ _) as [[[]|?] ?]; simpl in *; apply H.
    all: intros s Hf; apply (Hq data s eq_refl); by eapply fires_lookup, Hf.
Qed.

(** C4: in every reachable world each component has an entry whose status is
    a key of the component's table; and a fetch whose object holds, for a key,
    a value outside the allowed set leaves the entry of that key as it was. *)
Theorem reachable_status_allowed w :
  reachable w →
  (∀ c, c ∈ COMPONENTS →
     ∃ table e, STATUS_OPTIONS !! c = Some table ∧
                current_status w !! c = Some e ∧
                status e ∈ dom table) ∧
  (∀ now (m : gmap string json) c,
     (∀ s, m !! c = Some (JStr s) → ¬ allowed c s) →
     current_status (fetch_status_from_github now (Response 200 (Ok (JObj m))) w).2 !! c
       = current_status w !! c).
Proof.
  intros Hr. split.
  - intros c Hc. destruct (component_table c Hc) as [table Ht].
    destruct (reachable_ok w Hr c Hc) as (e & He & Hcons).
    exists table, e. split_and!; [done..|].
    unfold consistent in Hcons. rewrite Ht in Hcons. simpl in Hcons.
    apply elem_of_dom. by eexists.
  - intros now m c Hout. apply fetch_keeps.
    intros data s [= <-] (m' & e & [= <-] & Hm & Hal & _). by apply (Hout s).
Qed.

Lemma reachable_status_allowed_witness :
  (∃ table e, STATUS_OPTIONS !! "server" = Some table ∧
              current_status (initial_world None) !! "server" = Some e ∧
              status e ∈ dom table) ∧
  current_status (fetch_status_from_github (λ _, t0)
                    (Response 200 (Ok (JObj {[ "server" := JStr "Busy" ]})))
                    (initial_world None)).2 !! "server"
    = current_status (initial_world None) !! "server".
Proof.
  destruct (reachable_status_allowed (initial_world None) (reach_init None)) as [Hin Hout].
  split.
  - apply Hin. unfold COMPONENTS. do 2 apply list_elem_of_further. apply list_elem_of_here.
  - apply Hout. intros s Hs. vm_compute in Hs. injection Hs as <-.
    unfold allowed. vm_compute. intros [g Hg]. discriminate Hg.
Defined.

(** C10: in every reachable world the glyph of each entry is the table's
    glyph for the stored status, which is what [get_status_color] gives and
    is never the fallback glyph. *)
Theorem reachable_glyph w :
  reachable w →
  ∀ c, c ∈ COMPONENTS →
    ∃ table e, STATUS_OPTIONS !! c = Some table ∧
               current_status w !! c = Some e ∧
               table !! status e = Some (color e) ∧
               color e = get_status_color c (status e) ∧
               color e ≠ "⚪".
Proof.
  intros Hr c Hc. destruct (component_table c Hc) as [table Ht].
  destruct (reachable_ok w Hr c Hc) as (e & He & Hcons).
  exists table, e. unfold consistent in Hcons. unfold get_status_color.
  rewrite Ht in *. simpl in *. rewrite Hcons. simpl.
  split_and!; try done. by eapply table_glyphs.
Qed.

Lemma reachable_glyph_witness :
  let w := (fetch_status_from_github (λ _, t0)
              (Response 200 (Ok (JObj {[ "admin" := JStr "Sleeping" ]})))
              (initial_world None)).2 in
  ∃ table e, STATUS_OPTIONS !! "admin" = Some table ∧
             current_status w !! "admin" = Some e ∧
             table !! status e = Some (color e) ∧
             color e = get_status_color "admin" (status e) ∧
             color e ≠ "⚪".
Proof.
  cbv zeta. refine (reachable_glyph _ (reach_fetch _ _ _ (reach_init None)) "admin" _).
  unfold COMPONENTS. apply list_elem_of_here.
Defined.

(** ** C5: fetching the same object twice *)

(** C5: after a fetch of an object, a second fetch of the same object,
    whatever the clock reads, leaves the store as the first one left it:
    status, glyph and [last_update] of every component. *)
Theorem fetch_twice now1 now2 data w :
  let w1 := (fetch_status_from_github now1 (Response 200 (Ok data)) w).2 in
  let w2 := (fetch_status_from_github now2 (Response 200 (Ok data)) w1).2 in
  current_status w2 = current_status w1 ∧
  ∀ c, last_update <$> current_status w2 !! c = last_update <$> current_status w1 !! c.
Proof.
  cbv zeta.
  set (w1 := (fetch_status_from_github now1 (Response 200 (Ok data)) w).2).
  assert (current_status (fetch_status_from_github now2 (Response 200 (Ok data)) w1).2
          = current_status w1) as Heq; [|by rewrite Heq].
  rewrite fetch_200_eq.
  destruct (encodable (FetchedStatus data)) eqn:Henc; [|done].
  pose proof (loop_again now1 data now2 COMPONENTS (emit (FetchedStatus data) w)
                (emit (FetchedStatus data) w1) COMPONENTS_NoDup) as Hagain.
  assert (current_status w1
          = current_status (for_each COMPONENTS (update_component now1 data)
                              (emit (FetchedStatus data) w)).2) as Hw1.
  { subst w1. rewrite fetch_200_eq, Henc. by destruct (for_each _ _ _) as [[[]|?] ?]. }
  destruct (for_each COMPONENTS (update_component now2 data) _) as [[[]|?] w2];
    simpl in *; apply Hagain; intros c _; by rewrite Hw1.
Qed.

(** ** C8: the fetcher returns a boolean *)

(** C8: for every answer of the GET and every world the call returns a
    boolean and raises nothing.  It returns [False], with the matching line
    printed last, when the request fails, when the status is not 200, when
    the body cannot be read, when the line about the fetched body cannot be
    printed, and when the loop over the components raises; it returns [True]
    exactly when the status is 200, the body was read, the line was printed
    and the loop returned. *)
Theorem fetch_returns_bool now http w :
  ∃ b w', fetch_status_from_github now http w = (Ok b, w') ∧
    (∀ e, http = ConnectFailed e →
       b = false ∧ last (stdout w') = Some (ErrorFetching e)) ∧
    (∀ code body, http = Response code body → code ≠ 200 →
       b = false ∧ last (stdout w') = Some (FailedHTTP code)) ∧
    (∀ e, http = Response 200 (Raise e) →
       b = false ∧ last (stdout w') = Some (ErrorFetching e)) ∧
    (∀ data, http = Response 200 (Ok data) →
       match print (FetchedStatus data) w with
       | (Raise e, _) => b = false ∧ last (stdout w') = Some (ErrorFetching e)
       | (Ok _, w0) =>
           match for_each COMPONENTS (update_component now data) w0 with
           | (Ok _, w1) => b = true ∧ w' = w1
           | (Raise e, _) => b = false ∧ last (stdout w') = Some (ErrorFetching e)
           end
       end).
Proof.
  destruct (http_cases http) as [[e ->]|[(code & body & -> & Hc)|[[e ->]|[data ->]]]].
  - eexists _, _. split; [apply fetch_connect_eq|].
    split_and!; try done. intros ? [= <-]. simpl. by rewrite last_snoc.
  - eexists _, _. split; [by apply fetch_status_eq|].
    split_and!; try done.
    + intros ?? [= <- <-] _. simpl. by rewrite last_snoc.
    + by intros ? [= -> _].
    + by intros ? [= -> _].
  - eexists _, _. split; [apply fetch_body_eq|].
    split_and!; try done.
    + by intros ?? [= <- <-].
    + intros ? [= <-]. simpl. by rewrite last_snoc.
  - rewrite fetch_200_eq. unfold print.
    destruct (encodable (FetchedStatus data)) eqn:Henc.
    + destruct (for_each _ _ _) as [[[]|e] w1] eqn:Hloop.
      * eexists _, _. split; [done|]. split_and!; try done.
        -- by intros ?? [= <- <-].
        -- intros ? [= <-]. by rewrite Henc, Hloop.
      * eexists _, _. split; [done|]. split_and!; try done.
        -- by intros ?? [= <- <-].
        -- intros ? [= <-]. rewrite Henc, Hloop. simpl. by rewrite last_snoc.
    + eexists _, _. split; [done|]. split_and!; try done.
      * by intros ?? [= <- <-].
      * intros ? [= <-]. rewrite Henc. simpl. by rewrite last_snoc.
Qed.

Lemma fetch_returns_bool_witness :
  (fetch_status_from_github (λ _, t0) (ConnectFailed ClientError) (initial_world None)).1
    = Ok false ∧
  (fetch_status_from_github (λ _, t0) (Response 404 (Raise JSONDecodeError))
     (initial_world None)).1 = Ok false ∧
  (fetch_status_from_github (λ _, t0) (Response 200 (Ok (JObj {[ "admin" := JStr "Busy" ]})))
     (initial_world None)).1 = Ok true ∧
  (fetch_status_from_github (λ _, t0) (Response 200 (Ok (JStr lone_surrogate)))
     (initial_world None)).1 = Ok false.
Proof.
  split_and!.
  - destruct (fetch_returns_bool (λ _, t0) (ConnectFailed ClientError) (initial_world None))
      as (b & w' & -> & H & _).
    destruct (H ClientError eq_refl) as [-> _]. reflexivity.
  - destruct (fetch_returns_bool (λ _, t0) (Response 404 (Raise JSONDecodeError))
                (initial_world None)) as (b & w' & -> & _ & H & _).
    destruct (H 404 _ eq_refl) as [-> _]; [lia|reflexivity].
  - destruct (fetch_returns_bool (λ _, t0)
                (Response 200 (Ok (JObj {[ "admin" := JStr "Busy" ]})))
                (initial_world None)) as (b & w' & -> & _ & _ & _ & H).
    specialize (H _ eq_refl). vm_compute in H. destruct H as [-> _]. reflexivity.
  - destruct (fetch_returns_bool (λ _, t0) (Response 200 (Ok (JStr lone_surrogate)))
                (initial_world None)) as (b & w' & -> & _ & _ & _ & H).
    specialize (H _ eq_refl). vm_compute in H. destruct H as [-> _]. reflexivity.
Defined.

(** ** C6 and C7: the publisher without a usable target *)

Lemma publish_embed_unconfigured p embed w :
  status_message_id w = 0 → publish_embed p embed w = (print NoMessageIdSet w).2.
Proof. intros H. unfold publish_embed. by rewrite H. Qed.

Lemma publish_embed_not_found p embed w :
  status_message_id w ≠ 0 →
  fetch_message p (status_message_id w) = Raise NotFound →
  publish_embed p embed w =
  (print (MessageNotFound (status_message_id w))
     (call_api (FetchMessage (status_message_id w)) w).2).2.
Proof.
  intros Hid Hf. unfold publish_embed, truthy. rewrite Hf.
  rewrite bool_decide_eq_true_2 by done.
  by destruct (Z.eqb_spec (status_message_id w) 0).
Qed.

Lemma publish_embed_calls p embed w :
  ∃ calls : list ApiCall,
    api_calls (publish_embed p embed w) = (api_calls w ++ calls)%list ∧
    Forall (λ c, creates c = false) calls.
Proof.
  unfold publish_embed.
  destruct (truthy _ && _).
  - destruct (fetch_message p _) as [message|e].
    + exists [FetchMessage (status_message_id w); EditMessage message embed].
      split; [|by repeat constructor].
      destruct (edit_message p message embed) as [[]|[]]; simpl; by rewrite <- app_assoc.
    + exists [FetchMessage (status_message_id w)].
      split; [|by repeat constructor]. by destruct e.
  - exists []. split; [|done]. simpl. by rewrite app_nil_r.
Qed.

(** C6, as stated, fails: with no identifier configured and a channel that
    the client does not know, the only line printed is "Channel not found!",
    not the instruction to configure an identifier. *)
Lemma unconfigured_without_channel :
  let w := initial_world None in
  let w' := (update_status_message no_channel t0 w).2 in
  status_message_id w = 0 ∧
  stdout w' = [ChannelNotFound] ∧
  NoMessageIdSet ∉ stdout w'.
Proof.
  cbv zeta. split_and!; [done|done|].
  change (stdout _) with [ChannelNotFound].
  rewrite list_elem_of_singleton. discriminate.
Qed.

(** C6 (amended): in every reachable world with no identifier configured
    (absent or zero), a call to the publisher returns, sends nothing to the
    platform and leaves the store and the identifier as they were; it prints
    one line: the instruction to configure an identifier when the channel is
    known, and "Channel not found!" when it is not. *)
Theorem unconfigured_publisher p now w :
  reachable w → status_message_id w = 0 →
  let r := update_status_message p now w in
  r.1 = Ok tt ∧
  api_calls r.2 = api_calls w ∧
  current_status r.2 = current_status w ∧
  status_message_id r.2 = status_message_id w ∧
  stdout r.2 = (stdout w ++ [match get_channel p with
                          | Some _ => NoMessageIdSet
                          | None => ChannelNotFound
                          end])%list.
Proof.
  intros Hr Hid. cbv zeta. rewrite update_status_message_eq.
  destruct (get_channel p); [|done].
  destruct (create_status_embed_complete now w) as (a & u & s & _ & _ & _ & ->).
  { by apply store_ok_complete, reachable_ok. }
  by rewrite publish_embed_unconfigured.
Qed.

Lemma unconfigured_publisher_witness :
  let r := update_status_message no_message t0 (initial_world None) in
  r.1 = Ok tt ∧
  api_calls r.2 = [] ∧
  stdout r.2 = [NoMessageIdSet].
Proof.
  cbv zeta.
  destruct (unconfigured_publisher no_message t0 (initial_world None) (reach_init None) eq_refl)
    as (H1 & H2 & _ & _ & H3).
  split; [exact H1|]. split; [exact H2|exact H3].
Defined.

(** C7: the publisher never sends a request that creates a message, whatever
    the world and the platform.  In every reachable world with a configured
    identifier that the platform does not resolve to a message
    ([fetch_message] raises [NotFound]), the call returns after printing one
    warning (that the message was not found, or that the channel was not),
    having sent at most the request to fetch the message, and neither an edit
    nor a creation. *)
Theorem publisher_never_creates p now w :
  let r := update_status_message p now w in
  (∃ calls : list ApiCall,
     api_calls r.2 = (api_calls w ++ calls)%list ∧
     Forall (λ c, creates c = false) calls) ∧
  (reachable w → status_message_id w ≠ 0 →
   fetch_message p (status_message_id w) = Raise NotFound →
   r.1 = Ok tt ∧
   current_status r.2 = current_status w ∧
   status_message_id r.2 = status_message_id w ∧
   stdout r.2 = (stdout w ++ [match get_channel p with
                              | Some _ => MessageNotFound (status_message_id w)
                              | None => ChannelNotFound
                              end])%list ∧
   api_calls r.2 = (api_calls w ++ match get_channel p with
                                    | Some _ => [FetchMessage (status_message_id w)]
                                    | None => []
                                    end)%list).
Proof.
  cbv zeta. rewrite update_status_message_eq. split.
  - destruct (get_channel p).
    + destruct (create_status_embed now w) as [[embed|e] w1]; simpl.
      * apply publish_embed_calls.
      * exists []. by rewrite app_nil_r.
    + exists []. simpl. by rewrite app_nil_r.
  - intros Hr Hid Hf.
    destruct (get_channel p); [|simpl; by rewrite app_nil_r].
    destruct (create_status_embed_complete now w) as (a & u & s & _ & _ & _ & ->).
    { by apply store_ok_complete, reachable_ok. }
    by rewrite publish_embed_not_found.
Qed.

Lemma publisher_never_creates_witness :
  let r := update_status_message no_message t0 (initial_world (Some 42)) in
  r.1 = Ok tt ∧
  stdout r.2 = [MessageNotFound 42] ∧
  api_calls r.2 = [FetchMessage 42].
Proof.
  cbv zeta.
  destruct (publisher_never_creates no_message t0 (initial_world (Some 42))) as [_ H].
  destruct (H (reach_init (Some 42))) as (H1 & _ & _ & H2 & H3).
  - simpl. lia.
  - reflexivity.
  - split; [exact H1|]. split; [exact H2|exact H3].
Defined.

(** ** C9: the renderer is a function of the store *)

(** C9: two runs of the renderer over worlds with the same store, at any two
    clock readings, both raise the same exception or both return embeds that
    agree on title, description, fields, footer and accent colour, and carry
    their own clock reading as timestamp; neither run changes its world
    (store, identifier, printed lines, platform requests).  Over a store with
    the three entries the run returns, with one field per component: glyph
    and name as header, status and last update as body, where an absent
    timestamp reads "Never". *)
Theorem renderer_deterministic now1 now2 w1 w2 :
  current_status w1 = current_status w2 →
  let r1 := create_status_embed now1 w1 in
  let r2 := create_status_embed now2 w2 in
  r1.2 = w1 ∧ r2.2 = w2 ∧
  match r1.1, r2.1 with
  | Ok e1, Ok e2 =>
      title e1 = title e2 ∧ description e1 = description e2 ∧
      fields e1 = fields e2 ∧ footer e1 = footer e2 ∧
      embed_color e1 = embed_color e2 ∧
      timestamp e1 = now1 ∧ timestamp e2 = now2
  | Raise x1, Raise x2 => x1 = x2
  | _, _ => False
  end ∧
  (∀ a u s,
     current_status w1 = {[ "admin" := a; "usermode" := u; "server" := s ]} →
     ∃ e1, r1.1 = Ok e1 ∧
       title e1 = "🖥️ Sysware System Status" ∧
       fields e1 =
         [ mkField (color a +:+ " Admin Status") (field_body a) false;
           mkField (color u +:+ " User Mode") (field_body u) false;
           mkField (color s +:+ " Server") (field_body s) false ]) ∧
  (∀ e, last_update e = None →
     field_body e = "**Status:** " +:+ status e +:+ newline +:+ "**Last Update:** Never").
Proof.
  intros Hst. cbv zeta. split_and!.
  - apply create_status_embed_world.
  - apply create_status_embed_world.
  - rewrite !create_status_embed_eq, Hst.
    by repeat case_match; simplify_eq/=.
  - intros a u s Hw. rewrite (create_status_embed_shape now1 w1 a u s Hw).
    by eexists.
  - intros e He. unfold field_body. by rewrite He.
Qed.

Lemma renderer_deterministic_witness :
  let w1 := initial_world None in
  let w2 := (update_status_message no_message t0 w1).2 in
  let r1 := create_status_embed t0 w1 in
  let r2 := create_status_embed (mkDateTime 2025 12 31 23 59 59) w2 in
  r1.2 = w1 ∧ r2.2 = w2 ∧
  match r1.1, r2.1 with
  | Ok e1, Ok e2 =>
      fields e1 = fields e2 ∧ footer e1 = footer e2 ∧ embed_color e1 = embed_color e2
  | _, _ => False
  end.
Proof.
  intros w1 w2 r1 r2.
  destruct (renderer_deterministic t0 (mkDateTime 2025 12 31 23 59 59) w1 w2 eq_refl)
    as (H1 & H2 & H3 & _).
  split; [exact H1|]. split; [exact H2|].
  fold r1 r2 in H3.
  destruct (r1.1) as [e1|x1] eqn:E1; [|vm_compute in E1; discriminate E1].
  destruct (r2.1) as [e2|x2] eqn:E2; [|exact H3].
  destruct H3 as (_ & _ & Hf & Hfo & Hc & _). split; [exact Hf|]. split; [exact Hfo|exact Hc].
Defined.

(** ** Worked examples *)

Example strftime_t0 : strftime t0 = "2024-01-15 09:30:05".
Proof. reflexivity. Qed.

Example get_status_color_known : get_status_color "admin" "Sleeping" = "🟠".
Proof. by vm_compute. Qed.

Example get_status_color_unknown : get_status_color "server" "Busy" = "⚪".
Proof. by vm_compute. Qed.

(** A body that is a JSON string or array: no component is found in it, the
    call returns [True] and the store is as before. *)
Example fetch_string_body :
  let r := fetch_status_from_github (λ _, t0) (Response 200 (Ok (JStr "maintenance")))
             (initial_world None) in
  r.1 = Ok true ∧ current_status r.2 = initial_status.
Proof. by vm_compute. Qed.

(** A body that is a string with a lone surrogate: the line about the
    fetched body cannot be printed, the handler prints its own line and the
    call returns [False]. *)
Example fetch_lone_surrogate :
  let r := fetch_status_from_github (λ _, t0) (Response 200 (Ok (JStr lone_surrogate)))
             (initial_world None) in
  utf8_valid lone_surrogate = false ∧
  r.1 = Ok false ∧ current_status r.2 = initial_status ∧
  stdout r.2 = [ErrorFetching UnicodeEncodeError].
Proof. by vm_compute. Qed.

Example utf8_valid_glyph : utf8_valid "🟢 Admin Status — é" = true.
Proof. by vm_compute. Qed.

(** A body that is a JSON number: [in] raises, the call returns [False]. *)
Example fetch_number_body :
  let r := fetch_status_from_github (λ _, t0) (Response 200 (Ok (JInt 7)))
             (initial_world None) in
  r.1 = Ok false ∧ current_status r.2 = initial_status ∧
  stdout r.2 = [FetchedStatus (JInt 7); ErrorFetching TypeError].
Proof. by vm_compute. Qed.

(** The end-to-end scenario: all components Offline, the document says all
    Online, the configured message exists.  The store is updated, the embed
    reports that all systems are operational, and the message is edited. *)
Example tick_all_online :
  let online : gmap string json :=
    {[ "admin" := JStr "Online"; "usermode" := JStr "Online"; "server" := JStr "Online" ]} in
  let platform :=
    mkPlatform (Some 1460911777939194081) (λ id, Ok id) (λ _ _, Ok tt) (λ _, Ok 1) (Ok 2) in
  let r := auto_update_status (λ _, t0) (Response 200 (Ok (JObj online))) platform t0
             (initial_world (Some 42)) in
  r.1 = Ok tt ∧
  current_status r.2 =
    {[ "admin" := mkStatus "Online" (Some "2024-01-15 09:30:05") "🟢";
       "usermode" := mkStatus "Online" (Some "2024-01-15 09:30:05") "🟢";
       "server" := mkStatus "Online" (Some "2024-01-15 09:30:05") "🟢" ]} ∧
  stdout r.2 =
    [ FetchedStatus (JObj online); UpdatedTo "admin" "Online"; UpdatedTo "usermode" "Online";
      UpdatedTo "server" "Online"; UpdatedMessage 42 ] ∧
  ∃ e, api_calls r.2 = [FetchMessage 42; EditMessage 42 e] ∧
       footer e = Some "✅ All Systems Operational • Auto-updates every 30s" ∧
       embed_color e = 0x57F287.
Proof. cbv zeta. split_and!; [by vm_compute..|]. eexists. by vm_compute. Qed.

(** The setup command is the one path that sends a creating request. *)
Example setstatus_creates :
  let r := create_initial_status no_message t0 (initial_world None) in
  r.1 = Ok tt ∧ status_message_id r.2 = 1 ∧
  ∃ e, api_calls r.2 = [SendEmbed e; SendCreated 1].
Proof. cbv zeta. split_and!; [by vm_compute..|]. eexists. by vm_compute. Qed.

(** * Further properties of the module *)

(** ** [get_status_color] *)

(** [get_status_color] gives the fallback glyph exactly for a status that is
    not a key of the category's table (in particular for an unknown
    category); for a key it gives the table's glyph. *)
Theorem get_status_color_fallback c s :
  (get_status_color c s = "⚪" ↔ ¬ allowed c s) ∧
  (allowed c s →
   ∃ table, STATUS_OPTIONS !! c = Some table ∧ table !! s = Some (get_status_color c s)).
Proof.
  unfold get_status_color, allowed.
  destruct (STATUS_OPTIONS !! c) as [table|] eqn:Ht; simpl.
  - destruct (table !! s) as [g|] eqn:Hg; simpl.
    + split.
      * split; [|intros Hn; destruct Hn; by eexists].
        intros ->. by destruct (table_glyphs c table s _ Ht Hg).
      * intros _. by exists table.
    + split; [|by intros [? ?]]. split; [|done]. by intros _ [? ?].
  - rewrite lookup_empty. simpl. split; [|by intros [? ?]].
    split; [|done]. by intros _ [? ?].
Qed.

Lemma get_status_color_fallback_witness :
  ∃ table, STATUS_OPTIONS !! "usermode" = Some table ∧
           table !! "Updating" = Some (get_status_color "usermode" "Updating").
Proof.
  refine (proj2 (get_status_color_fallback "usermode" "Updating") _).
  unfold allowed. vm_compute. eauto.
Defined.

(** ** More on the fetcher *)

(** An iteration leaves the world as it was or performs the update. *)
Lemma update_component_cases now data c w :
  (update_component now data c w).2 = w ∨
  ∃ s, fires data c w s ∧ update_component now data c w = (Ok tt, updated_world now c s w).
Proof.
  rewrite update_component_eq.
  destruct data as [| | | | |items|m]; simpl; try (left; by repeat case_match).
  destruct (m !! c) as [v|] eqn:Hv; simpl; [|by left].
  destruct v as [| | | |s| |]; simpl; try by left.
  case_bool_decide as Hal; [|by left].
  destruct (current_status w !! c) as [e|] eqn:He; [|by left].
  case_bool_decide as Hne; [|by left].
  right. exists s. split; [|done]. by exists m, e.
Qed.

(** After an iteration that returned, the status of a key whose value is an
    allowed string is that string. *)
Lemma update_component_mirror now (m : gmap string json) c w w' s :
  update_component now (JObj m) c w = (Ok tt, w') →
  m !! c = Some (JStr s) → allowed c s →
  ∃ e, current_status w' !! c = Some e ∧ status e = s.
Proof.
  rewrite update_component_eq. simpl. intros Hrun Hm Hal. rewrite Hm in Hrun. simpl in Hrun.
  rewrite bool_decide_eq_true_2 in Hrun by done.
  destruct (current_status w !! c) as [e|] eqn:He; [|done].
  case_bool_decide as Hne; injection Hrun as <-.
  - eexists. split; [apply lookup_insert_eq|done].
  - exists e. split; [done|]. by destruct (decide (status e = s)).
Qed.

(** An iteration on a key that holds an array or an object raises. *)
Lemma update_component_unhashable now (m : gmap string json) c w v :
  m !! c = Some v → unhashable v = true →
  update_component now (JObj m) c w = (Raise TypeError, w).
Proof.
  intros Hm Hv. rewrite update_component_eq. simpl. rewrite Hm. simpl.
  by destruct v.
Qed.


Section more_loop.
Context (now : string → DateTime).

Lemma loop_entry data l w k :
  NoDup l →
  let w' := (for_each l (update_component now data) w).2 in
  current_status w' !! k = current_status w !! k ∨
  ∃ s, fires data k w s ∧
       current_status w' !! k
         = Some (mkStatus s (Some (strftime (now k))) (get_status_color k s)).
Proof.
  revert w. induction l as [|c l IH]; intros w Hnd; [by left|].
  apply NoDup_cons in Hnd as [Hc Hnd]. cbv zeta. rewrite for_each_cons.
  destruct (decide (c = k)) as [->|Hne].
  - destruct (update_component_cases now data k w) as [Hsame|(s & Hf & Hrun)].
    + destruct (update_component now data k w) as [[[]|?] w1]; simpl in *; subst w1;
        [|by left].
      left. by apply loop_other.
    + rewrite Hrun. right. exists s. split; [done|].
      rewrite loop_other by done. apply lookup_insert_eq.
  - pose proof (update_component_other now data c w k (not_eq_sym Hne)) as Ho.
    destruct (update_component now data c w) as [[[]|?] w1]; simpl in *; [|by left].
    destruct (IH w1 Hnd) as [Hsame|(s & Hf & Hlk)].
    + left. by rewrite Hsame.
    + right. exists s. split; [|done]. eapply fires_lookup, Hf. by rewrite Ho.
Qed.

Lemma loop_mirror (m : gmap string json) l w w' c s :
  NoDup l →
  for_each l (update_component now (JObj m)) w = (Ok tt, w') →
  c ∈ l → m !! c = Some (JStr s) → allowed c s →
  ∃ e, current_status w' !! c = Some e ∧ status e = s.
Proof.
  revert w. induction l as [|x l IH]; intros w Hnd Hrun Hc Hm Hal;
    [by apply elem_of_nil in Hc|].
  apply NoDup_cons in Hnd as [Hx Hnd]. rewrite for_each_cons in Hrun.
  destruct (update_component now (JObj m) x w) as [[[]|?] w1] eqn:Hstep; [|done].
  apply elem_of_cons in Hc as [->|Hc].
  - destruct (update_component_mirror _ _ _ _ _ _ Hstep Hm Hal) as (e & He & Hs).
    exists e. split; [|done].
    pose proof (loop_other now (JObj m) l w1 x Hx) as Ho. rewrite Hrun in Ho. simpl in Ho.
    by rewrite Ho.
  - by apply (IH w1).
Qed.

Lemma loop_hashable (m : gmap string json) l w w' c v :
  for_each l (update_component now (JObj m)) w = (Ok tt, w') →
  c ∈ l → m !! c = Some v → unhashable v = false.
Proof.
  revert w. induction l as [|x l IH]; intros w Hrun Hc Hm; [by apply elem_of_nil in Hc|].
  rewrite for_each_cons in Hrun.
  apply elem_of_cons in Hc as [->|Hc].
  - destruct (unhashable v) eqn:Hv; [|done].
    by rewrite (update_component_unhashable now m x w v Hm Hv) in Hrun.
  - destruct (update_component now (JObj m) x w) as [[[]|?] w1]; [|done].
    by apply (IH w1).
Qed.


(** The update lines of a run name the statuses that the store holds
    afterwards. *)
Lemma loop_logged data l w :
  NoDup l →
  let w' := (for_each l (update_component now data) w).2 in
  ∃ lines : list Line,
    stdout w' = (stdout w ++ lines)%list ∧
    ∀ c s, UpdatedTo c s ∈ lines →
      c ∈ l ∧ status <$> current_status w' !! c = Some s.
Proof.
  revert w. induction l as [|x l IH]; intros w Hnd.
  { exists []. split; [by rewrite app_nil_r|]. intros c s Hin. by apply elem_of_nil in Hin. }
  apply NoDup_cons in Hnd as [Hx Hnd]. cbv zeta. rewrite for_each_cons.
  destruct (update_component_cases now data x w) as [Hsame|(s & Hf & Hrun)].
  - destruct (update_component now data x w) as [[[]|?] w1]; simpl in *; subst w1.
    + destruct (IH w Hnd) as (lines & Hout & Hl). exists lines. split; [done|].
      intros c s' Hin. destruct (Hl c s' Hin) as [Hc Hs]. split; [by right|done].
    + exists []. split; [by rewrite app_nil_r|]. intros c s Hin. by apply elem_of_nil in Hin.
  - rewrite Hrun.
    destruct (IH (updated_world now x s w) Hnd) as (lines & Hout & Hl).
    exists (UpdatedTo x s :: lines). split.
    { rewrite Hout. simpl. by rewrite <- app_assoc. }
    intros c s' [[= -> ->]|Hin]%elem_of_cons.
    + split; [by left|]. rewrite loop_other by done. simpl.
      by rewrite lookup_insert_eq.
    + destruct (Hl c s' Hin) as [Hc Hs]. split; [by right|done].
Qed.
End more_loop.

(** A fetch never adds a key to the store and never removes one, whatever the
    store is and whatever the GET answers. *)
Theorem fetch_keeps_keys now http w :
  dom (current_status (fetch_status_from_github now http w).2) = dom (current_status w).
Proof.
  apply set_eq. intros k. rewrite !elem_of_dom. apply fetch_present.
Qed.

(** The timestamp moves only with the status: an entry whose status is the
    same after a fetch as before is the same entry, glyph and [last_update]
    included. *)
Theorem fetch_same_status_same_entry now http w k e e' :
  current_status w !! k = Some e →
  current_status (fetch_status_from_github now http w).2 !! k = Some e' →
  status e' = status e →
  e' = e.
Proof.
  intros He He' Hs.
  destruct (http_cases http) as [[x ->]|[(code & body & -> & Hc)|[[x ->]|[data ->]]]].
  - simpl in He'. congruence.
  - rewrite fetch_status_eq in He' by done. simpl in He'. congruence.
  - simpl in He'. congruence.
  - rewrite fetch_200_eq in He'.
    destruct (encodable (FetchedStatus data)); [|simpl in He'; congruence].
    pose proof (loop_entry now data COMPONENTS (emit (FetchedStatus data) w) k
                  COMPONENTS_NoDup) as Hent. cbv zeta in Hent.
    assert (current_status (for_each COMPONENTS (update_component now data)
                              (emit (FetchedStatus data) w)).2 !! k = Some e') as Hl.
    { by destruct (for_each _ _ _) as [[[]|?] ?]. }
    rewrite Hl in Hent. destruct Hent as [Hsame|(s & Hf & Hnew)].
    + simpl in Hsame. congruence.
    + destruct Hf as (m & e0 & _ & _ & _ & He0 & Hne). simpl in He0.
      injection Hnew as ->. simpl in Hs. congruence.
Qed.

Lemma fetch_same_status_same_entry_witness :
  let w := initial_world None in
  let w' := (fetch_status_from_github (λ _, t0)
               (Response 200 (Ok (JObj {[ "admin" := JStr "Offline" ]}))) w).2 in
  ∃ e', current_status w' !! "admin" = Some e' ∧ e' = mkStatus "Offline" None "🔴".
Proof.
  intros w w'.
  assert (current_status w' !! "admin" = Some (mkStatus "Offline" None "🔴")) as He'
    by (vm_compute; reflexivity).
  eexists. split; [exact He'|].
  exact (fetch_same_status_same_entry (λ _, t0) _ w "admin" _ _ eq_refl He' eq_refl).
Defined.

(** After a call that returned [True] on an object, every recognized key
    whose value is an allowed string has that string as its stored status,
    whether the call changed the entry or found it so. *)
Theorem fetch_true_mirrors now (m : gmap string json) w w' c s :
  fetch_status_from_github now (Response 200 (Ok (JObj m))) w = (Ok true, w') →
  c ∈ COMPONENTS → m !! c = Some (JStr s) → allowed c s →
  ∃ e, current_status w' !! c = Some e ∧ status e = s.
Proof.
  rewrite fetch_object_eq. intros Hrun Hc Hm Hal.
  destruct (for_each _ _ _) as [[[]|?] w1] eqn:Hloop; [|done].
  injection Hrun as <-.
  by eapply (loop_mirror now m COMPONENTS), Hal; [apply COMPONENTS_NoDup|..].
Qed.

Lemma fetch_true_mirrors_witness :
  let m : gmap string json := {[ "admin" := JStr "Busy"; "server" := JStr "Offline" ]} in
  let w' := (fetch_status_from_github (λ _, t0) (Response 200 (Ok (JObj m)))
               (initial_world None)).2 in
  (∃ e, current_status w' !! "admin" = Some e ∧ status e = "Busy") ∧
  (∃ e, current_status w' !! "server" = Some e ∧ status e = "Offline").
Proof.
  intros m w'.
  assert (fetch_status_from_github (λ _, t0) (Response 200 (Ok (JObj m))) (initial_world None)
          = (Ok true, w')) as Hrun by (vm_compute; reflexivity).
  split.
  - apply (fetch_true_mirrors _ _ _ _ "admin" "Busy" Hrun).
    + unfold COMPONENTS. apply list_elem_of_here.
    + reflexivity.
    + unfold allowed. vm_compute. eauto.
  - apply (fetch_true_mirrors _ _ _ _ "server" "Offline" Hrun).
    + unfold COMPONENTS. do 2 apply list_elem_of_further. apply list_elem_of_here.
    + reflexivity.
    + unfold allowed. vm_compute. eauto.
Defined.

(** Over a store with the three entries, a call on an object returns [True]
    exactly when no recognized key holds an array or an object; strings
    outside the tables, numbers, booleans and null do not make it fail. *)
Theorem fetch_object_result now (m : gmap string json) w :
  complete (current_status w) →
  (fetch_status_from_github now (Response 200 (Ok (JObj m))) w).1 = Ok true ↔
  ∀ c v, c ∈ COMPONENTS → m !! c = Some v → unhashable v = false.
Proof.
  intros Hcomplete. rewrite fetch_object_eq. split.
  - destruct (for_each _ _ _) as [[[]|?] w1] eqn:Hloop; [|done].
    intros _ c v Hc Hm. by eapply (loop_hashable now m COMPONENTS).
  - intros Hh.
    pose proof (loop_returns now (JObj m) m COMPONENTS (emit (FetchedStatus (JObj m)) w)
                  eq_refl Hh Hcomplete) as Hr.
    by destruct (for_each _ _ _) as [[[]|?] w1].
Qed.

Lemma fetch_object_result_witness :
  (fetch_status_from_github (λ _, t0)
     (Response 200 (Ok (JObj {[ "admin" := JInt 3; "server" := JStr "Melting" ]})))
     (initial_world None)).1 = Ok true.
Proof.
  apply fetch_object_result.
  - apply store_ok_complete, initial_status_ok.
  - intros c v Hc Hm. unfold COMPONENTS in Hc.
    repeat (apply elem_of_cons in Hc as [->|Hc]);
      [vm_compute in Hm; injection Hm as <-; reflexivity
      |vm_compute in Hm; discriminate Hm
      |vm_compute in Hm; injection Hm as <-; reflexivity
      |by apply elem_of_nil in Hc].
Defined.



(** What a fetch prints agrees with what it stores: the call only appends to
    the output, and every line "Updated c to s" that it appends names a
    recognized component whose stored status after the call is s. *)
Theorem fetch_log_matches_store now http w :
  let w' := (fetch_status_from_github now http w).2 in
  ∃ lines : list Line,
    stdout w' = (stdout w ++ lines)%list ∧
    ∀ c s, UpdatedTo c s ∈ lines →
      c ∈ COMPONENTS ∧ status <$> current_status w' !! c = Some s.
Proof.
  cbv zeta.
  destruct (http_cases http) as [[x ->]|[(code & body & -> & Hc)|[[x ->]|[data ->]]]].
  - eexists. split; [done|]. by intros c s [[=]|[]%elem_of_nil]%elem_of_cons.
  - rewrite fetch_status_eq by done. eexists. split; [done|].
    by intros c s [[=]|[]%elem_of_nil]%elem_of_cons.
  - eexists. split; [done|]. by intros c s [[=]|[]%elem_of_nil]%elem_of_cons.
  - rewrite fetch_200_eq. destruct (encodable (FetchedStatus data)).
    2:{ eexists. split; [done|]. by intros c s [[=]|[]%elem_of_nil]%elem_of_cons. }
    destruct (loop_logged now data COMPONENTS (emit (FetchedStatus data) w)
                COMPONENTS_NoDup) as (lines & Hout & Hl). cbv zeta in Hout, Hl.
    destruct (for_each _ _ _) as [[[]|x] w1]; simpl in *.
    + exists (FetchedStatus data :: lines). rewrite Hout, <- app_assoc. split; [done|].
      intros c s [[=]|Hin]%elem_of_cons. by apply Hl.
    + exists (FetchedStatus data :: lines ++ [ErrorFetching x])%list.
      rewrite Hout, <- !app_assoc. split; [done|].
      intros c s [[=]|[Hin|[[=]|[]%elem_of_nil]%elem_of_cons]%elem_of_app]%elem_of_cons.
      by apply Hl.
Qed.

(** ** More on the renderer *)

(** The renderer returns an embed exactly when the store has the three
    entries; otherwise it raises [KeyError] for the first of admin, usermode,
    server that is missing, and for nothing else. *)
Theorem renderer_key_error now w :
  ((∃ e, (create_status_embed now w).1 = Ok e) ↔ complete (current_status w)) ∧
  (∀ x, (create_status_embed now w).1 = Raise x →
     ∃ c, x = KeyError c ∧ c ∈ COMPONENTS ∧ current_status w !! c = None ∧
          ∀ c', c' ∈ before c COMPONENTS → is_Some (current_status w !! c')).
Proof.
  rewrite create_status_embed_eq. split.
  - split.
    + intros [e He] c Hc. unfold COMPONENTS in Hc.
      destruct (current_status w !! "admin") eqn:Ha; [|done].
      destruct (current_status w !! "usermode") eqn:Hu; [|done].
      destruct (current_status w !! "server") eqn:Hs; [|done].
      repeat (apply elem_of_cons in Hc as [->|Hc]); [by eexists..|by apply elem_of_nil in Hc].
    + intros Hc.
      destruct (Hc "admin") as [a ->]; [unfold COMPONENTS; set_solver|].
      destruct (Hc "usermode") as [u ->]; [unfold COMPONENTS; set_solver|].
      destruct (Hc "server") as [s ->]; [unfold COMPONENTS; set_solver|].
      by eexists.
  - intros x.
    destruct (current_status w !! "admin") eqn:Ha.
    2:{ intros [= <-]. exists "admin". split_and!; [done|unfold COMPONENTS; set_solver|done|].
        simpl. by intros c' []%elem_of_nil. }
    destruct (current_status w !! "usermode") eqn:Hu.
    2:{ intros [= <-]. exists "usermode".
        split_and!; [done|unfold COMPONENTS; set_solver|done|].
        simpl. intros c' [->|[]%elem_of_nil]%elem_of_cons. by rewrite Ha. }
    destruct (current_status w !! "server") eqn:Hs; [done|].
    intros [= <-]. exists "server". split_and!; [done|unfold COMPONENTS; set_solver|done|].
    simpl. intros c' [->|[->|[]%elem_of_nil]%elem_of_cons]%elem_of_cons; by eexists.
Qed.

Lemma renderer_key_error_witness :
  let w := mkWorld (delete "usermode" initial_status) 0 [] [] in
  ∃ c, KeyError "usermode" = KeyError c ∧ c ∈ COMPONENTS ∧ current_status w !! c = None ∧
       ∀ c', c' ∈ before c COMPONENTS → is_Some (current_status w !! c').
Proof.
  cbv zeta.
  exact (proj2 (renderer_key_error t0 (mkWorld (delete "usermode" initial_status) 0 [] []))
           (KeyError "usermode") eq_refl).
Defined.

(** In every reachable world the renderer returns, leaves the world as it
    is, and the embed has the clock reading as timestamp, three fields, none
    of them inline, one of the three health colours (never the colour given
    to the constructor) and a footer that ends with the refresh note. *)
Theorem renderer_reachable now w :
  reachable w →
  ∃ e, create_status_embed now w = (Ok e, w) ∧
    timestamp e = now ∧
    length (fields e) = 3%nat ∧
    Forall (λ f, field_inline f = false) (fields e) ∧
    embed_color e ∈ [0x57F287; 0xED4245; 0xFEE75C] ∧
    embed_color e ≠ 0x5865F2 ∧
    ∃ health, footer e = Some (health +:+ " • Auto-updates every 30s").
Proof.
  intros Hr. destruct (reachable_shape w Hr) as (a & u & s & Hw).
  rewrite (create_status_embed_shape now w a u s Hw). eexists. split; [done|].
  unfold rendered. simpl. split_and!; try done.
  - by repeat constructor.
  - rewrite health_of_three.
    repeat case_bool_decide; simpl;
      repeat first [apply list_elem_of_here | apply list_elem_of_further].
  - rewrite health_of_three. by repeat case_bool_decide.
  - by eexists.
Qed.

Lemma renderer_reachable_witness :
  ∃ e, create_status_embed t0 (initial_world None) = (Ok e, initial_world None) ∧
       length (fields e) = 3%nat ∧ embed_color e ≠ 0x5865F2.
Proof.
  destruct (renderer_reachable t0 (initial_world None) (reach_init None))
    as (e & He & _ & Hl & _ & _ & Hc & _).
  exists e. split; [exact He|]. split; [exact Hl|exact Hc].
Defined.

(** ** More invariants of the reachable worlds *)

(** In every reachable world the store has the keys admin, usermode and
    server and no other. *)
Theorem reachable_store_keys w :
  reachable w → dom (current_status w) = {[ "admin"; "usermode"; "server" ]}.
Proof.
  intros (a & u & s & ->)%reachable_shape.
  rewrite !dom_insert_L, dom_singleton_L. set_solver.
Qed.

Lemma reachable_store_keys_witness :
  dom (current_status
         (fetch_status_from_github (λ _, t0)
            (Response 200 (Ok (JObj {[ "extra" := JStr "Online"; "admin" := JStr "Busy" ]})))
            (initial_world None)).2)
  = {[ "admin"; "usermode"; "server" ]}.
Proof. exact (reachable_store_keys _ (reach_fetch _ _ _ (reach_init None))). Defined.

(** ** The timestamps *)

Lemma strftime_length d : String.length (strftime d) = 19%nat.
Proof. done. Qed.

Lemma digit_inj a b :
  digit a = digit b → (a `mod` 10 = b `mod` 10)%nat.
Proof.
  unfold digit. intros H.
  apply (f_equal (λ s, match s with String c _ => nat_of_ascii c | EmptyString => 0%nat end))
    in H.
  cbv beta iota in H.
  rewrite !nat_ascii_embedding in H.
  - lia.
  - pose proof (Nat.mod_upper_bound b 10). lia.
  - pose proof (Nat.mod_upper_bound a 10). lia.
Qed.

Lemma append_inj_length s1 s2 t1 t2 :
  String.length s1 = String.length s2 →
  s1 +:+ t1 = s2 +:+ t2 → s1 = s2 ∧ t1 = t2.
Proof.
  revert s2. induction s1 as [|a s1 IH]; intros [|b s2]; simpl; try done.
  intros [= Hl] [= -> H]. destruct (IH s2 Hl H) as [-> ->]. done.
Qed.

Lemma pad2_digits a b :
  pad2 a = pad2 b →
  ((a / 10) `mod` 10 = (b / 10) `mod` 10 ∧ a `mod` 10 = b `mod` 10)%nat.
Proof.
  unfold pad2. intros [H1 H2]%append_inj_length; [|done].
  split; by apply digit_inj.
Qed.

Lemma pad2_inj a b : (a < 100)%nat → (b < 100)%nat → pad2 a = pad2 b → a = b.
Proof.
  intros Ha Hb [H1 H2]%pad2_digits.
  pose proof (Nat.div_mod_eq a 10). pose proof (Nat.div_mod_eq b 10).
  rewrite (Nat.mod_small (a / 10) 10) in H1 by (apply Nat.Div0.div_lt_upper_bound; lia).
  rewrite (Nat.mod_small (b / 10) 10) in H1 by (apply Nat.Div0.div_lt_upper_bound; lia).
  lia.
Qed.

Lemma digits4 (a : nat) :
  (Z.of_nat a ≤ 9999)%Z →
  a = (1000 * ((a / 100 / 10) `mod` 10) + 100 * ((a / 100) `mod` 10)
       + 10 * ((a / 10) `mod` 10) + a `mod` 10)%nat.
Proof.
  intros Ha.
  pose proof (Nat.div_mod_eq a 10). pose proof (Nat.div_mod_eq (a / 10) 10).
  pose proof (Nat.div_mod_eq (a / 100) 10).
  pose proof (Nat.Div0.div_div a 10 10) as Hd. change (10 * 10)%nat with 100%nat in Hd.
  assert (a / 100 / 10 < 10)%nat.
  { apply Nat.Div0.div_lt_upper_bound. apply Nat.Div0.div_lt_upper_bound. lia. }
  rewrite (Nat.mod_small (a / 100 / 10) 10) by done.
  lia.
Qed.

Lemma pad4_inj a b :
  (Z.of_nat a ≤ 9999)%Z → (Z.of_nat b ≤ 9999)%Z → pad4 a = pad4 b → a = b.
Proof.
  unfold pad4. intros Ha Hb [H1 H2]%append_inj_length; [|done].
  apply pad2_digits in H1 as [H11 H12], H2 as [H21 H22].
  rewrite (digits4 a Ha), (digits4 b Hb). congruence.
Qed.

(** Second precision: two clock readings of four-digit years print the same
    [last_update] text only when they are the same second; the text always
    has 19 characters. *)
Theorem strftime_injective d1 d2 :
  valid_datetime d1 → valid_datetime d2 →
  strftime d1 = strftime d2 →
  d1 = d2 ∧ String.length (strftime d1) = 19%nat.
Proof.
  intros (Hy1 & Hm1 & Hd1 & Hh1 & Hmi1 & Hs1) (Hy2 & Hm2 & Hd2 & Hh2 & Hmi2 & Hs2) H.
  split; [|done].
  destruct d1 as [y1 m1 dd1 h1 mi1 s1], d2 as [y2 m2 dd2 h2 mi2 s2].
  unfold strftime in H. simpl year in *. simpl month in *. simpl day in *.
  simpl hour in *. simpl minute in *. simpl second in *.
  apply append_inj_length in H as [Hy H]; [|done].
  apply append_inj_length in H as [_ H]; [|done].
  apply append_inj_length in H as [Hm H]; [|done].
  apply append_inj_length in H as [_ H]; [|done].
  apply append_inj_length in H as [Hd H]; [|done].
  apply append_inj_length in H as [_ H]; [|done].
  apply append_inj_length in H as [Hh H]; [|done].
  apply append_inj_length in H as [_ H]; [|done].
  apply append_inj_length in H as [Hmi H]; [|done].
  apply append_inj_length in H as [_ Hs]; [|done].
  apply pad4_inj in Hy; [|lia..].
  apply pad2_inj in Hm; [|lia..]. apply pad2_inj in Hd; [|lia..].
  apply pad2_inj in Hh; [|lia..]. apply pad2_inj in Hmi; [|lia..].
  apply pad2_inj in Hs; [|lia..].
  by subst.
Qed.

Lemma strftime_injective_witness :
  valid_datetime t0 ∧ String.length (strftime t0) = 19%nat.
Proof.
  assert (valid_datetime t0) as Hv by (unfold valid_datetime, t0; simpl; lia).
  split; [exact Hv|].
  exact (proj2 (strftime_injective t0 t0 Hv Hv eq_refl)).
Defined.

(** After a fetch an entry is as before, or is the one written by the update
    of its component. *)
Lemma fetch_entry now http w k :
  let w' := (fetch_status_from_github now http w).2 in
  current_status w' !! k = current_status w !! k ∨
  ∃ s, allowed k s ∧
       current_status w' !! k
         = Some (mkStatus s (Some (strftime (now k))) (get_status_color k s)).
Proof.
  cbv zeta.
  destruct (http_cases http) as [[x ->]|[(code & body & -> & Hc)|[[x ->]|[data ->]]]].
  - by left.
  - rewrite fetch_status_eq by done. by left.
  - by left.
  - rewrite fetch_200_eq. destruct (encodable (FetchedStatus data)); [|by left].
    pose proof (loop_entry now data COMPONENTS (emit (FetchedStatus data) w) k
                  COMPONENTS_NoDup) as Hent. cbv zeta in Hent.
    assert (current_status
              (match for_each COMPONENTS (update_component now data)
                       (emit (FetchedStatus data) w) with
               | (Ok _, w') => (Ok true, w')
               | (Raise e, w') => (Ok false, emit (ErrorFetching e) w')
               end).2
            = current_status (for_each COMPONENTS (update_component now data)
                                (emit (FetchedStatus data) w)).2) as ->.
    { by destruct (for_each _ _ _) as [[[]|?] ?]. }
    destruct Hent as [Hsame|(s & Hf & Hnew)]; [by left|].
    right. exists s. split; [|done]. by destruct Hf as (? & ? & _ & _ & ? & _).
Qed.

Lemma initial_entries c e :
  initial_status !! c = Some e → e = mkStatus "Offline" None "🔴".
Proof.
  assert (map_Forall (λ _ e, e = mkStatus "Offline" None "🔴") initial_status) as H.
  { apply (bool_decide_unpack _). by vm_compute. }
  apply H.
Qed.

Lemma reachable_stamped w :
  reachable w →
  ∀ c e, current_status w !! c = Some e →
    e = mkStatus "Offline" None "🔴" ∨ ∃ d, last_update e = Some (strftime d).
Proof.
  induction 1 as [env|now http w _ IH|p now w _ IH|p now w _ IH]; intros c e He.
  - left. by eapply initial_entries.
  - destruct (fetch_entry now http w c) as [Hsame|(s & _ & Hnew)].
    + apply (IH c). by rewrite <- Hsame.
    + right. rewrite Hnew in He. injection He as <-. by eexists.
  - destruct (update_status_message_store p now w) as [Hst _]. rewrite Hst in He. by eapply IH.
  - rewrite create_initial_status_store in He. by eapply IH.
Qed.

Lemma strftime_not_never d : strftime d ≠ "Never".
Proof.
  intros H. apply (f_equal String.length) in H. by rewrite strftime_length in H.
Qed.

(** In every reachable world an entry without a timestamp is the initial one
    (Offline, red glyph), every timestamp was printed by [strftime], and the
    renderer writes "Never" exactly for the entries without a timestamp, that
    is, for the components that no fetch has updated. *)
Theorem reachable_timestamps w :
  reachable w →
  ∀ c e, current_status w !! c = Some e →
    (last_update e = None → e = mkStatus "Offline" None "🔴") ∧
    (∀ t, last_update e = Some t → ∃ d, t = strftime d) ∧
    (or_else (last_update e) "Never" = "Never" ↔ last_update e = None).
Proof.
  intros Hr c e He.
  destruct (reachable_stamped w Hr c e He) as [->|[d Hd]].
  - by split_and!.
  - rewrite Hd. split_and!; [done|intros t [= <-]; by exists d|].
    split; [|done]. change (or_else (Some (strftime d)) "Never") with (strftime d).
    intros H. by destruct (strftime_not_never d).
Qed.

Lemma reachable_timestamps_witness :
  ∃ d, "2024-01-15 09:30:05" = strftime d.
Proof.
  pose (w := (fetch_status_from_github (λ _, t0)
                (Response 200 (Ok (JObj {[ "server" := JStr "Medium" ]})))
                (initial_world None)).2).
  assert (current_status w !! "server"
          = Some (mkStatus "Medium" (Some "2024-01-15 09:30:05") "🟡")) as He
    by (vm_compute; reflexivity).
  exact (proj1 (proj2 (reachable_timestamps w (reach_fetch _ _ _ (reach_init None))
                         "server" _ He)) _ eq_refl).
Defined.

(** ** More on the publisher *)

Lemma publish_embed_line p embed w :
  ∃ line, stdout (publish_embed p embed w) = (stdout w ++ [line])%list ∧
          ∀ x, line ≠ ErrorUpdating x.
Proof.
  unfold publish_embed.
  destruct (truthy _ && _); [|by eexists].
  destruct (fetch_message p _) as [message|[]]; try by eexists.
  destruct (edit_message p message embed) as [[]|[]]; by eexists.
Qed.

Lemma update_status_message_returns p now w :
  reachable w → (update_status_message p now w).1 = Ok tt.
Proof.
  intros Hr. rewrite update_status_message_eq.
  destruct (get_channel p); [|done].
  by destruct (create_status_embed_complete now w) as (a & u & s & _ & _ & _ & ->);
    [apply store_ok_complete, reachable_ok|].
Qed.

(** The publisher's requests and output when the message is found and the
    edit accepted. *)
Lemma publish_embed_ok p embed w message :
  status_message_id w ≠ 0 →
  fetch_message p (status_message_id w) = Ok message →
  edit_message p message embed = Ok tt →
  api_calls (publish_embed p embed w)
    = (api_calls w ++ [FetchMessage (status_message_id w); EditMessage message embed])%list ∧
  stdout (publish_embed p embed w)
    = (stdout w ++ [UpdatedMessage (status_message_id w)])%list.
Proof.
  intros Hid Hf He. unfold publish_embed, truthy. rewrite Hf, He.
  rewrite bool_decide_eq_true_2 by done.
  destruct (Z.eqb_spec (status_message_id w) 0); [done|]. simpl.
  by rewrite <- app_assoc.
Qed.

(** In every reachable world the publisher returns, whatever the platform
    does: it raises nothing, prints exactly one line (never the line of its
    outer handler), and leaves the store and the identifier as they were. *)
Theorem publisher_returns p now w :
  reachable w →
  let r := update_status_message p now w in
  r.1 = Ok tt ∧
  current_status r.2 = current_status w ∧
  status_message_id r.2 = status_message_id w ∧
  ∃ line, stdout r.2 = (stdout w ++ [line])%list ∧ ∀ x, line ≠ ErrorUpdating x.
Proof.
  intros Hr. cbv zeta.
  destruct (update_status_message_store p now w) as [Hst Hid].
  split_and!; [by apply update_status_message_returns|done|done|].
  rewrite update_status_message_eq.
  - destruct (get_channel p); [|by eexists].
    destruct (create_status_embed_complete now w) as (a & u & s & _ & _ & _ & ->);
      [by apply store_ok_complete, reachable_ok|].
    apply publish_embed_line.
Qed.

Lemma publisher_returns_witness :
  let p := mkPlatform (Some 7) (λ _, Raise Forbidden) (λ _ _, Raise HTTPException)
             (λ _, Raise HTTPException) (Raise HTTPException) in
  (update_status_message p t0 (initial_world (Some 42))).1 = Ok tt.
Proof.
  intros p.
  exact (proj1 (publisher_returns p t0 (initial_world (Some 42)) (reach_init (Some 42)))).
Defined.

(** With the channel known, an identifier configured, and a platform that
    finds the message and accepts the edit, the publisher sends exactly two
    requests: it fetches the configured message and edits the message it got
    with the embed that the renderer builds from the current store; it then
    prints that the message was updated. *)
Theorem publisher_success p now w channel message :
  reachable w →
  get_channel p = Some channel →
  status_message_id w ≠ 0 →
  fetch_message p (status_message_id w) = Ok message →
  (∀ e, edit_message p message e = Ok tt) →
  let r := update_status_message p now w in
  ∃ e, create_status_embed now w = (Ok e, w) ∧
       api_calls r.2
         = (api_calls w ++ [FetchMessage (status_message_id w); EditMessage message e])%list ∧
       stdout r.2 = (stdout w ++ [UpdatedMessage (status_message_id w)])%list.
Proof.
  intros Hr Hch Hid Hf He. cbv zeta. rewrite update_status_message_eq, Hch.
  destruct (create_status_embed_complete now w) as (a & u & s & _ & _ & _ & Hemb);
    [by apply store_ok_complete, reachable_ok|].
  rewrite Hemb. eexists. split; [done|]. simpl.
  by apply publish_embed_ok.
Qed.

Lemma publisher_success_witness :
  let r := update_status_message working t0 (initial_world (Some 42)) in
  ∃ e, api_calls r.2 = [FetchMessage 42; EditMessage 42 e] ∧
       stdout r.2 = [UpdatedMessage 42].
Proof.
  cbv zeta.
  destruct (publisher_success working t0 (initial_world (Some 42)) 1460911777939194081 42
              (reach_init (Some 42)) eq_refl) as (e & _ & Hc & Ho).
  - simpl. lia.
  - reflexivity.
  - intros e. reflexivity.
  - exists e. split; [exact Hc|exact Ho].
Defined.

(** An exception of the platform is logged, not raised.  With the channel
    known and an identifier configured: when [fetch_message] raises, only the
    fetch request was sent and no edit; when the edit raises, the fetch and
    the edit were sent.  In both cases the line printed is "not found" for
    [NotFound] and "Error editing message" for any other exception. *)
Theorem publisher_platform_error p now w channel :
  reachable w →
  get_channel p = Some channel →
  status_message_id w ≠ 0 →
  let id := status_message_id w in
  let r := update_status_message p now w in
  let line x := match x with NotFound => MessageNotFound id | _ => ErrorEditing x end in
  r.1 = Ok tt ∧
  (∀ x, fetch_message p id = Raise x →
     api_calls r.2 = (api_calls w ++ [FetchMessage id])%list ∧
     stdout r.2 = (stdout w ++ [line x])%list) ∧
  (∀ message x e,
     fetch_message p id = Ok message →
     create_status_embed now w = (Ok e, w) →
     edit_message p message e = Raise x →
     api_calls r.2 = (api_calls w ++ [FetchMessage id; EditMessage message e])%list ∧
     stdout r.2 = (stdout w ++ [line x])%list).
Proof.
  intros Hr Hch Hid. cbv zeta.
  split; [by apply update_status_message_returns|].
  rewrite update_status_message_eq, Hch.
  destruct (create_status_embed_complete now w) as (a & u & s & _ & _ & _ & Hemb);
    [by apply store_ok_complete, reachable_ok|].
  rewrite Hemb. unfold publish_embed, truthy.
  rewrite bool_decide_eq_true_2 by done.
  destruct (Z.eqb_spec (status_message_id w) 0); [done|]. simpl.
  split.
  - intros x ->. by destruct x.
  - intros message x e -> [= <-] ->. rewrite <- app_assoc. by destruct x.
Qed.

Lemma publisher_platform_error_witness :
  let p := mkPlatform (Some 7) (λ _, Raise Forbidden) (λ _ _, Ok tt) (λ _, Ok 1) (Ok 2) in
  let r := update_status_message p t0 (initial_world (Some 42)) in
  r.1 = Ok tt ∧ api_calls r.2 = [FetchMessage 42] ∧ stdout r.2 = [ErrorEditing Forbidden].
Proof.
  intros p r.
  destruct (publisher_platform_error p t0 (initial_world (Some 42)) 7
              (reach_init (Some 42)) eq_refl) as (H1 & H2 & _).
  - simpl. lia.
  - split; [exact H1|]. exact (H2 Forbidden eq_refl).
Defined.

(** ** The setup command *)

Lemma create_initial_status_eq p now w e :
  create_status_embed now w = (Ok e, w) →
  create_initial_status p now w =
  let w1 := (call_api (SendEmbed e) w).2 in
  match send_embed p e with
  | Raise x => (Raise x, w1)
  | Ok message =>
      let w2 := (call_api (SendCreated message) (set_message_id message w1).2).2 in
      match send_text p with
      | Ok _ => (Ok tt, w2)
      | Raise x => (Raise x, w2)
      end
  end.
Proof.
  intros He. unfold create_initial_status.
  unfold mbind at 1. unfold Py_bind at 1. rewrite He.
  py_unfold. simpl.
  destruct (send_embed p e); [|done]. by destruct (send_text p).
Qed.

(** The setup command, in a reachable world, sends the embed of the current
    store as a new message.  It catches nothing: when that request raises,
    the command raises and the identifier is as before; when it returns, the
    identifier becomes the new message's, which the confirmation then
    reports, and an exception of the confirmation is raised with the
    identifier already changed.  It prints nothing and leaves the store. *)
Theorem setup_command p now w :
  reachable w →
  let r := create_initial_status p now w in
  ∃ e, create_status_embed now w = (Ok e, w) ∧
    current_status r.2 = current_status w ∧
    stdout r.2 = stdout w ∧
    match send_embed p e with
    | Raise x =>
        r.1 = Raise x ∧
        status_message_id r.2 = status_message_id w ∧
        api_calls r.2 = (api_calls w ++ [SendEmbed e])%list
    | Ok message =>
        status_message_id r.2 = message ∧
        api_calls r.2 = (api_calls w ++ [SendEmbed e; SendCreated message])%list ∧
        r.1 = match send_text p with Ok _ => Ok tt | Raise x => Raise x end
    end.
Proof.
  intros Hr. cbv zeta.
  destruct (create_status_embed_complete now w) as (a & u & s & _ & _ & _ & Hemb);
    [by apply store_ok_complete, reachable_ok|].
  eexists. split; [done|].
  rewrite (create_initial_status_eq p now w _ Hemb). cbv zeta.
  destruct (send_embed p _) as [message|x]; [|done].
  destruct (send_text p); simpl; by rewrite <- app_assoc.
Qed.

Lemma setup_command_witness :
  let r := create_initial_status working t0 (initial_world None) in
  ∃ e, status_message_id r.2 = 1 ∧ api_calls r.2 = [SendEmbed e; SendCreated 1] ∧
       r.1 = Ok tt.
Proof.
  cbv zeta.
  destruct (setup_command working t0 (initial_world None) (reach_init None))
    as (e & _ & _ & _ & H).
  exists e. exact H.
Defined.

Lemma create_status_embed_same_store now1 now2 w1 w2 e1 e2 :
  current_status w1 = current_status w2 →
  create_status_embed now1 w1 = (Ok e1, w1) →
  create_status_embed now2 w2 = (Ok e2, w2) →
  fields e2 = fields e1 ∧ footer e2 = footer e1 ∧ embed_color e2 = embed_color e1.
Proof.
  intros Hst. rewrite !create_status_embed_eq, Hst.
  repeat case_match; try done. by intros [= <-] [= <-].
Qed.

(** The message that the setup command creates is the one that the publisher
    edits afterwards: after a command that returned with a non-zero
    identifier, a publisher run on a platform that finds that message and
    accepts the edit fetches and edits the message that the command reported,
    with the same fields and footer, and creates nothing. *)
Theorem setup_then_publish p now p' now' w channel :
  reachable w →
  let r := create_initial_status p now w in
  let id := status_message_id r.2 in
  let r' := update_status_message p' now' r.2 in
  r.1 = Ok tt → id ≠ 0 →
  get_channel p' = Some channel →
  fetch_message p' id = Ok id →
  (∀ e, edit_message p' id e = Ok tt) →
  ∃ e e',
    api_calls r'.2
      = (api_calls w ++ [SendEmbed e; SendCreated id; FetchMessage id; EditMessage id e'])%list ∧
    fields e' = fields e ∧ footer e' = footer e ∧
    stdout r'.2 = (stdout w ++ [UpdatedMessage id])%list.
Proof.
  intros Hr r id r' Hok Hid Hch Hf He.
  destruct (create_status_embed_complete now w) as (a & u & s & _ & _ & _ & Hemb);
    [by apply store_ok_complete, reachable_ok|].
  destruct (create_status_embed_complete now' r.2) as (a' & u' & s' & _ & _ & _ & Hemb');
    [by apply store_ok_complete, reachable_ok, reach_setup|].
  pose proof (create_initial_status_store p now w) as Hst. fold r in Hst.
  destruct (create_status_embed_same_store now now' w r.2 _ _ (eq_sym Hst) Hemb Hemb')
    as (Hfields & Hfooter & _).
  set (e := rendered now a u s (values (current_status w))) in *.
  set (e' := rendered now' a' u' s' (values (current_status r.2))) in *.
  exists e, e'. split_and!; [|exact Hfields|exact Hfooter|].
  all: subst r'; rewrite update_status_message_eq, Hch, Hemb'; simpl.
  all: destruct (publish_embed_ok p' e' r.2 id Hid Hf (He e')) as [Hcalls Hout]; fold id.
  all: rewrite ?Hcalls, ?Hout.
  all: subst id r; revert Hok; rewrite (create_initial_status_eq p now w _ Hemb); cbv zeta.
  all: destruct (send_embed p _) as [message|x]; [|done].
  all: destruct (send_text p); [|done]; intros _; simpl; by rewrite <- ?app_assoc.
Qed.

Lemma setup_then_publish_witness :
  let r := create_initial_status working t0 (initial_world None) in
  let r' := update_status_message working t0 r.2 in
  ∃ e e',
    api_calls r'.2 = [SendEmbed e; SendCreated 1; FetchMessage 1; EditMessage 1 e'] ∧
    stdout r'.2 = [UpdatedMessage 1].
Proof.
  cbv zeta.
  destruct (setup_then_publish working t0 working t0 (initial_world None) 1460911777939194081
              (reach_init None)) as (e & e' & H1 & _ & _ & H2).
  - reflexivity.
  - vm_compute. discriminate.
  - reflexivity.
  - reflexivity.
  - intros e. reflexivity.
  - exists e, e'. split; [exact H1|exact H2].
Defined.

(** ** The periodic task *)

Lemma fetch_never_raises now http w :
  ∃ b, (fetch_status_from_github now http w).1 = Ok b.
Proof.
  destruct (http_cases http) as [[x ->]|[(code & body & -> & Hc)|[[x ->]|[data ->]]]].
  - by eexists.
  - rewrite fetch_status_eq by done. by eexists.
  - by eexists.
  - rewrite fetch_200_eq. destruct (encodable (FetchedStatus data)); [|by eexists].
    destruct (for_each _ _ _) as [[[]|?] ?]; by eexists.
Qed.

(** One run of the periodic task in a reachable world always returns, and it
    always runs the publisher, on the world that the fetch left, whether the
    fetch succeeded or failed.  It sends at most two requests, none of which
    creates a message, and leaves the identifier as it was. *)
Theorem tick_publishes now http p now' w :
  reachable w →
  let r := auto_update_status now http p now' w in
  let w1 := (fetch_status_from_github now http w).2 in
  r.1 = Ok tt ∧
  r.2 = (update_status_message p now' w1).2 ∧
  current_status r.2 = current_status w1 ∧
  status_message_id r.2 = status_message_id w ∧
  reachable r.2 ∧
  ∃ calls : list ApiCall,
    api_calls r.2 = (api_calls w ++ calls)%list ∧
    (length calls ≤ 2)%nat ∧
    Forall (λ c, creates c = false) calls.
Proof.
  intros Hr. cbv zeta.
  pose proof (reach_fetch now http w Hr) as Hr1.
  destruct (fetch_globals now http w) as [Hid Hcalls].
  destruct (fetch_never_raises now http w) as [b Hb].
  assert (auto_update_status now http p now' w
          = update_status_message p now' (fetch_status_from_github now http w).2) as ->.
  { unfold auto_update_status, mbind, Py_bind.
    destruct (fetch_status_from_github now http w) as [[b'|?] w1]; [done|]. by simpl in Hb. }
  destruct (update_status_message_store p now' (fetch_status_from_github now http w).2)
    as [Hst Hid'].
  split_and!; [by apply update_status_message_returns|done|done|congruence
              |by apply reach_publish|].
  rewrite update_status_message_eq.
  destruct (get_channel p).
  2:{ exists []. simpl. rewrite app_nil_r. split_and!; [done|lia|done]. }
  destruct (create_status_embed now' _) as [[embed|x] w2]; simpl.
  2:{ exists []. rewrite app_nil_r. split_and!; [done|simpl; lia|done]. }
  rewrite <- Hcalls. unfold publish_embed.
  destruct (truthy _ && _).
  - destruct (fetch_message p _) as [message|x].
    + exists [FetchMessage (status_message_id (fetch_status_from_github now http w).2);
              EditMessage message embed].
      split_and!; [|simpl; lia|by repeat constructor].
      destruct (edit_message p message embed) as [[]|[]]; simpl; by rewrite <- app_assoc.
    + exists [FetchMessage (status_message_id (fetch_status_from_github now http w).2)].
      split_and!; [|simpl; lia|by repeat constructor]. by destruct x.
  - exists []. simpl. rewrite app_nil_r. split_and!; [done|lia|done].
Qed.

Lemma tick_publishes_witness :
  let r := auto_update_status (λ _, t0) (Response 503 (Raise ContentTypeError)) working t0
             (initial_world (Some 42)) in
  r.1 = Ok tt ∧ current_status r.2 = initial_status ∧ status_message_id r.2 = 42.
Proof.
  cbv zeta.
  destruct (tick_publishes (λ _, t0) (Response 503 (Raise ContentTypeError)) working t0
              (initial_world (Some 42)) (reach_init (Some 42))) as (H1 & _ & H2 & H3 & _).
  split; [exact H1|]. split; [exact H2|exact H3].
Defined.

(** ** Reading the health off the colour *)

Lemma table_statuses c table s g :
  STATUS_OPTIONS !! c = Some table → table !! s = Some g →
  s ∈ ["Online"; "Busy"; "Sleeping"; "Updating"; "Medium"; "Offline"].
Proof.
  assert (map_Forall (λ _ t,
            map_Forall (λ (s : string) (_ : string),
              s ∈ ["Online"; "Busy"; "Sleeping"; "Updating"; "Medium"; "Offline"]) t)
            STATUS_OPTIONS) as H.
  { apply (bool_decide_unpack _). by vm_compute. }
  intros Hc Hs. exact (H c table Hc s g Hs).
Qed.

Lemma consistent_status c e :
  consistent c e →
  status e ∈ ["Online"; "Busy"; "Sleeping"; "Updating"; "Medium"; "Offline"].
Proof.
  unfold consistent. destruct (STATUS_OPTIONS !! c) as [table|] eqn:Ht; simpl.
  - intros H. by eapply table_statuses.
  - by rewrite lookup_empty.
Qed.

Lemma shape_lookup_inv (σ : gmap string ComponentStatus) a u s c x :
  σ = {[ "admin" := a; "usermode" := u; "server" := s ]} →
  σ !! c = Some x → x = a ∨ x = u ∨ x = s.
Proof.
  intros -> Hx.
  destruct (decide (c = "admin")) as [->|]; [left; by injection Hx|].
  destruct (decide (c = "usermode")) as [->|]; [right; left; by injection Hx|].
  destruct (decide (c = "server")) as [->|]; [right; right; by injection Hx|].
  by rewrite !lookup_insert_ne, lookup_singleton_ne in Hx.
Qed.

(** In every reachable world the accent colour of the embed tells the state
    of the store: green exactly when every component is Online, red exactly
    when some component is Offline, yellow exactly when no component is
    Offline and some component is Busy, Sleeping, Updating or Medium. *)
Theorem health_colour_meaning now w :
  reachable w →
  ∃ e, create_status_embed now w = (Ok e, w) ∧
    (embed_color e = 0x57F287 ↔
       ∀ c x, current_status w !! c = Some x → status x = "Online") ∧
    (embed_color e = 0xED4245 ↔
       ∃ c x, current_status w !! c = Some x ∧ status x = "Offline") ∧
    (embed_color e = 0xFEE75C ↔
       (∀ c x, current_status w !! c = Some x → status x ≠ "Offline") ∧
       ∃ c x, current_status w !! c = Some x ∧
              status x ∈ ["Busy"; "Sleeping"; "Updating"; "Medium"]).
Proof.
  intros Hr. destruct (reachable_shape w Hr) as (a & u & s & Hw).
  destruct (shape_lookups w a u s Hw) as (Ha & Hu & Hs & _).
  assert (∀ c x, current_status w !! c = Some x → x = a ∨ x = u ∨ x = s) as Hinv.
  { intros c x. by apply shape_lookup_inv. }
  pose proof (reachable_ok w Hr) as Hok.
  assert (∀ x, x = a ∨ x = u ∨ x = s →
            status x ∈ ["Online"; "Busy"; "Sleeping"; "Updating"; "Medium"; "Offline"])
    as Hsix.
  { intros x [->|[->| ->]].
    - destruct (Hok "admin") as (e & He & Hc); [unfold COMPONENTS; set_solver|].
      rewrite Ha in He. injection He as <-. by eapply consistent_status.
    - destruct (Hok "usermode") as (e & He & Hc); [unfold COMPONENTS; set_solver|].
      rewrite Hu in He. injection He as <-. by eapply consistent_status.
    - destruct (Hok "server") as (e & He & Hc); [unfold COMPONENTS; set_solver|].
      rewrite Hs in He. injection He as <-. by eapply consistent_status. }
  assert (∀ x, x = a ∨ x = u ∨ x = s → status x ≠ "Online" → status x ≠ "Offline" →
            status x ∈ ["Busy"; "Sleeping"; "Updating"; "Medium"]) as Hfour.
  { intros x Hx Hon Hoff. specialize (Hsix x Hx).
    rewrite !elem_of_cons, elem_of_nil in Hsix. rewrite !elem_of_cons. intuition. }
  rewrite (create_status_embed_shape now w a u s Hw). eexists. split; [done|].
  unfold rendered. simpl. rewrite health_of_three.
  case_bool_decide as Hall; [|case_bool_decide as Hany]; simpl.
  - destruct Hall as (Hao & Huo & Hso). split_and!.
    + split; [|done]. intros _ c x Hx. by destruct (Hinv c x Hx) as [->|[->| ->]].
    + split; [done|]. intros (c & x & Hx & Hoff).
      destruct (Hinv c x Hx) as [->|[->| ->]]; congruence.
    + split; [done|]. intros (_ & c & x & Hx & Hin).
      rewrite !elem_of_cons, elem_of_nil in Hin.
      destruct (Hinv c x Hx) as [->|[->| ->]]; intuition congruence.
  - split_and!.
    + split; [done|]. intros H. destruct Hany as [Hoff|[Hoff|Hoff]].
      * specialize (H _ _ Ha). congruence.
      * specialize (H _ _ Hu). congruence.
      * specialize (H _ _ Hs). congruence.
    + split; [|done]. intros _. destruct Hany as [Hoff|[Hoff|Hoff]]; eauto.
    + split; [done|]. intros (H & _). destruct Hany as [Hoff|[Hoff|Hoff]].
      * by destruct (H _ _ Ha).
      * by destruct (H _ _ Hu).
      * by destruct (H _ _ Hs).
  - split_and!.
    + split; [done|]. intros H. destruct Hall.
      split_and!; [by apply (H "admin")|by apply (H "usermode")|by apply (H "server")].
    + split; [done|]. intros (c & x & Hx & Hoff). destruct Hany.
      destruct (Hinv c x Hx) as [->|[->| ->]]; eauto.
    + split; [|done]. intros _. split.
      * intros c x Hx Hoff. destruct Hany.
        destruct (Hinv c x Hx) as [->|[->| ->]]; eauto.
      * destruct (decide (status a = "Online")) as [Hao|Hao].
        2:{ exists "admin", a. split; [done|]. apply Hfour; eauto. }
        destruct (decide (status u = "Online")) as [Huo|Huo].
        2:{ exists "usermode", u. split; [done|]. apply Hfour; eauto. }
        destruct (decide (status s = "Online")) as [Hso|Hso].
        2:{ exists "server", s. split; [done|]. apply Hfour; eauto. }
        by destruct Hall.
Qed.

Lemma health_colour_meaning_witness :
  let w := (fetch_status_from_github (λ _, t0)
              (Response 200 (Ok (JObj {[ "admin" := JStr "Online"; "usermode" := JStr "Updating";
                                         "server" := JStr "Online" ]})))
              (initial_world None)).2 in
  ∃ e, create_status_embed t0 w = (Ok e, w) ∧ embed_color e = 0xFEE75C.
Proof.
  intros w.
  destruct (health_colour_meaning t0 w (reach_fetch _ _ _ (reach_init None)))
    as (e & He & _ & _ & _ & Hy).
  exists e. split; [exact He|]. apply Hy. split.
  - intros c x Hx Hoff.
    destruct (shape_lookup_inv (current_status w)
                (mkStatus "Online" (Some (strftime t0)) "🟢")
                (mkStatus "Updating" (Some (strftime t0)) "🟡")
                (mkStatus "Online" (Some (strftime t0)) "🟢") c x) as [->|[->| ->]];
      [vm_compute; reflexivity|exact Hx|discriminate Hoff..].
  - exists "usermode", (mkStatus "Updating" (Some (strftime t0)) "🟡").
    split; [vm_compute; reflexivity|]. simpl.
    do 2 apply list_elem_of_further. apply list_elem_of_here.
Defined.

(** ** From the document to the message *)

(** From any reachable world with an identifier configured, a run of the
    periodic task that fetches a document saying Online for the three
    components, on a platform that finds the message and accepts the edit,
    leaves every component Online and edits the message with a green embed
    whose footer says that all systems are operational. *)
Theorem tick_all_online_published now p now' w channel message :
  reachable w →
  status_message_id w ≠ 0 →
  get_channel p = Some channel →
  fetch_message p (status_message_id w) = Ok message →
  (∀ e, edit_message p message e = Ok tt) →
  let document : gmap string json :=
    {[ "admin" := JStr "Online"; "usermode" := JStr "Online"; "server" := JStr "Online" ]} in
  let r := auto_update_status now (Response 200 (Ok (JObj document))) p now' w in
  (∀ c, c ∈ COMPONENTS → status <$> current_status r.2 !! c = Some "Online") ∧
  ∃ e, api_calls r.2
         = (api_calls w ++ [FetchMessage (status_message_id w); EditMessage message e])%list ∧
       embed_color e = 0x57F287 ∧
       footer e = Some "✅ All Systems Operational • Auto-updates every 30s".
Proof.
  intros Hr Hid Hch Hf He document. cbv zeta.
  set (http := Response 200 (Ok (JObj document))).
  pose proof (reach_fetch now http w Hr) as Hr1.
  destruct (fetch_globals now http w) as [Hid1 Hcalls1].
  assert (∀ c, c ∈ COMPONENTS →
            status <$> current_status (fetch_status_from_github now http w).2 !! c
            = Some "Online") as Hon.
  { intros c Hc. subst http. rewrite fetch_object_eq.
    pose proof (loop_returns now (JObj document) document COMPONENTS
                  (emit (FetchedStatus (JObj document)) w) eq_refl) as Hret.
    destruct (for_each _ _ _) as [[[]|x] w1] eqn:Hloop; simpl in *.
    - destruct (loop_mirror now document COMPONENTS _ _ c "Online" COMPONENTS_NoDup Hloop Hc)
        as (e & -> & Hs).
      + unfold COMPONENTS in Hc.
        repeat (apply elem_of_cons in Hc as [->|Hc]); [done..|by apply elem_of_nil in Hc].
      + unfold COMPONENTS in Hc.
        repeat (apply elem_of_cons in Hc as [->|Hc]);
          [unfold allowed; vm_compute; eauto..|by apply elem_of_nil in Hc].
      + simpl. by rewrite Hs.
    - assert (Raise x = Ok ()) as Habs; [|done]. apply Hret.
      + intros c' v Hc' Hv. unfold COMPONENTS in Hc'.
        repeat (apply elem_of_cons in Hc' as [->|Hc']);
          [by injection Hv as <-..|by apply elem_of_nil in Hc'].
      + by apply store_ok_complete, reachable_ok. }
  assert (auto_update_status now http p now' w
          = update_status_message p now' (fetch_status_from_github now http w).2) as ->.
  { unfold auto_update_status, mbind, Py_bind.
    destruct (fetch_never_raises now http w) as [b Hb].
    destruct (fetch_status_from_github now http w) as [[b'|?] w1]; [done|]. by simpl in Hb. }
  destruct (update_status_message_store p now' (fetch_status_from_github now http w).2)
    as [Hst _].
  split; [intros c Hc; rewrite Hst; by apply Hon|].
  destruct (reachable_shape _ Hr1) as (a & u & s & Hw1).
  destruct (shape_lookups _ a u s Hw1) as (Ha & Hu & Hs & _).
  rewrite update_status_message_eq, Hch, (create_status_embed_shape now' _ a u s Hw1).
  eexists. simpl.
  destruct (publish_embed_ok p (rendered now' a u s [s; u; a])
              (fetch_status_from_github now http w).2 message) as [Hcalls _];
    [by rewrite Hid1|by rewrite Hid1|done|].
  rewrite Hcalls, Hcalls1, Hid1. split; [done|].
  unfold rendered. simpl. rewrite health_of_three.
  rewrite bool_decide_eq_true_2; [done|].
  pose proof (Hon "admin") as H1. pose proof (Hon "usermode") as H2.
  pose proof (Hon "server") as H3.
  rewrite Ha in H1. rewrite Hu in H2. rewrite Hs in H3.
  split_and!.
  - assert (Some (status a) = Some "Online") as [= ->]; [|done].
    apply H1. unfold COMPONENTS. apply list_elem_of_here.
  - assert (Some (status u) = Some "Online") as [= ->]; [|done].
    apply H2. unfold COMPONENTS. apply list_elem_of_further, list_elem_of_here.
  - assert (Some (status s) = Some "Online") as [= ->]; [|done].
    apply H3. unfold COMPONENTS. do 2 apply list_elem_of_further. apply list_elem_of_here.
Qed.

Lemma tick_all_online_published_witness :
  let document : gmap string json :=
    {[ "admin" := JStr "Online"; "usermode" := JStr "Online"; "server" := JStr "Online" ]} in
  let r := auto_update_status (λ _, t0) (Response 200 (Ok (JObj document))) working t0
             (initial_world (Some 42)) in
  ∃ e, api_calls r.2 = [FetchMessage 42; EditMessage 42 e] ∧ embed_color e = 0x57F287.
Proof.
  cbv zeta.
  destruct (tick_all_online_published (λ _, t0) working t0 (initial_world (Some 42))
              1460911777939194081 42 (reach_init (Some 42))) as (_ & e & H1 & H2 & _).
  - simpl. lia.
  - reflexivity.
  - reflexivity.
  - intros e. reflexivity.
  - exists e. split; [exact H1|exact H2].
Defined.
